(** * Duration parsing and formatting (@aezen/duration), localization lookups

    A shallow embedding of [packages/utilities/duration/duration.js] and
    [packages/utilities/duration/formatter.js], and the properties of the
    parser and of the rendering modes that the specification states; then the
    lookups of [packages/plugins/localization/index.js].

    Layout: the arithmetic of the decimal value type the code computes with,
    the string helpers, the formatter, the parser, the localization lookups,
    and then the theorems. *)

From Stdlib Require Import ZArith NArith QArith Qpower Qround Lia Lqa List Sorted Bool.
From Stdlib Require Import Ascii String DecimalString.
Import ListNotations.

Open Scope Z_scope.

(** ** The decimal value type (bignumber.js)

    The code computes every magnitude with [BigNumber]: a decimal floating
    value, a coefficient times a power of ten, the value NaN, or an infinity.
    The library is configured nowhere in the repository, so its defaults
    apply: [DECIMAL_PLACES = 20], [ROUNDING_MODE = ROUND_HALF_UP],
    [MODULO_MODE = ROUND_DOWN], [RANGE = 1e7]; [toString] switches to
    exponential notation from 1e21 up and from 1e-7 down.

    Finite values are modelled as [dec], with an unbounded [Z] for the
    exponent. The library keeps the decimal exponent of a value between
    [-1e7] and [1e7]: a result above the range becomes an infinity, one below
    it becomes zero ([normalise]). The parser, whose numbers are written in
    the input text, is modelled with that range and with the infinities
    ([Extended], [Ranged]). The formatter is modelled on NaN and on finite
    magnitudes, with the exact operations below: its quotients, products and
    remainders are taken as they are while they stay in the range, and the
    rendering of an infinity is outside the model. So is the sign of zero. *)
Module Big.

Record dec : Set := mkDec { coef : Z; expo : Z }.

Inductive BigNumber : Set :=
| NaN
| Fin (d : dec).

Definition ofZ (z : Z) : dec := mkDec z 0.

Definition pow10 (k : Z) : Z := 10 ^ k.

(** The coefficient of [d] once its exponent is lowered to [e <= expo d]. *)
Definition scaleTo (e : Z) (d : dec) : Z := coef d * pow10 (expo d - e).

(** The exact sum, difference and product. [x.plus(y)], [x.minus(y)] and
    [x.times(y)] compute them and then bring the result into the exponent
    range ([normalise], [Ranged]). *)
Definition plus (a b : dec) : dec :=
  let e := Z.min (expo a) (expo b) in mkDec (scaleTo e a + scaleTo e b) e.

Definition minus (a b : dec) : dec :=
  let e := Z.min (expo a) (expo b) in mkDec (scaleTo e a - scaleTo e b) e.

Definition times (a b : dec) : dec :=
  mkDec (coef a * coef b) (expo a + expo b).

Definition abs (a : dec) : dec := mkDec (Z.abs (coef a)) (expo a).

Definition isNegative (a : dec) : bool := coef a <? 0.

Definition isLessThan (a b : dec) : bool :=
  let e := Z.min (expo a) (expo b) in scaleTo e a <? scaleTo e b.

Definition DECIMAL_PLACES : Z := 20.

(** Numerator and denominator of |a / b| * 10^dp as integers. *)
Definition ratio (dp : Z) (a b : dec) : Z * Z :=
  let k := expo a - expo b + dp in
  (Z.abs (coef a) * pow10 (Z.max k 0), Z.abs (coef b) * pow10 (Z.max (- k) 0)).

Definition sgn2 (a b : dec) : Z := Z.sgn (coef a) * Z.sgn (coef b).

(** [x.dividedBy(y)]: the quotient rounded to [DECIMAL_PLACES] decimal places,
    half away from zero. The divisors of the code are the unit magnitudes,
    which are not zero; a zero divisor (Infinity or NaN in the library) is
    outside the model. *)
Definition dividedBy (a b : dec) : dec :=
  let (n, d) := ratio DECIMAL_PLACES a b in
  mkDec (sgn2 a b * ((2 * n + d) / (2 * d))) (- DECIMAL_PLACES).

(** [x.integerValue(BigNumber.ROUND_FLOOR)], as an integer. *)
Definition floorZ (a : dec) : Z :=
  if 0 <=? expo a then coef a * pow10 (expo a) else coef a / pow10 (- expo a).

Definition integerValue_FLOOR (a : dec) : dec := ofZ (floorZ a).

(** [x.modulo(y)] with [MODULO_MODE = ROUND_DOWN]: [x - y * q] for the
    quotient [q] truncated toward zero; exact. *)
Definition modulo (a b : dec) : dec :=
  let (n, d) := ratio 0 a b in
  minus a (times (ofZ (sgn2 a b * (n / d))) b).

Definition isNaN (x : BigNumber) : bool :=
  match x with NaN => true | Fin _ => false end.

(** The rational number a finite value denotes. *)
Definition toQ (a : dec) : Q := (inject_Z (coef a) * (10 # 1) ^ expo a)%Q.

(** *** The exponent range

    [x.e] is the decimal exponent of the first significant digit of a nonzero
    value; the library holds it within [MIN_EXP] and [MAX_EXP]. *)
Definition MAX_EXP : Z := 10000000.

Definition MIN_EXP : Z := -10000000.

(** The number of decimal digits of a nonzero coefficient. *)
Definition digitCount (c : Z) : Z :=
  Z.of_nat (Decimal.nb_digits (N.to_uint (Z.abs_N c))).

Definition exponent (a : dec) : Z := expo a + digitCount (coef a) - 1.

Definition isZero (a : dec) : bool := coef a =? 0.

(** The library holds the value as it is: zero, or an exponent in the
    range. *)
Definition inRange (a : dec) : bool :=
  isZero a || ((MIN_EXP <=? exponent a) && (exponent a <=? MAX_EXP)).

(** The values with the infinities: what an operation returns when its result
    may leave the range. The values the formatter is modelled on are among
    them. *)
Inductive Extended : Set :=
| Infinity (negative : bool)
| Within (x : BigNumber).

(** What the library keeps of the exact result [a] (the overflow and
    underflow tests of the constructor and of [normalise]): an infinity of
    the sign of [a] when the exponent is above [MAX_EXP], zero when it is
    below [MIN_EXP] (the library's zero keeps the sign), and [a]
    otherwise. *)
Definition normalise (a : dec) : Extended :=
  if isZero a then Within (Fin a)
  else if MAX_EXP <? exponent a then Infinity (isNegative a)
  else if exponent a <? MIN_EXP then Within (Fin (ofZ 0))
  else Within (Fin a).

(** The operations of the parser, on the values with the infinities. *)
Module Ranged.

(** [x.times(y)]: NaN when an operand is NaN and for zero times an infinity;
    an infinity of the product of the signs when an operand is infinite; the
    exact product brought into the range otherwise. *)
Definition times (x y : Extended) : Extended :=
  match x, y with
  | Within NaN, _ | _, Within NaN => Within NaN
  | Infinity s, Infinity s' => Infinity (xorb s s')
  | Infinity s, Within (Fin b) =>
      if isZero b then Within NaN else Infinity (xorb s (isNegative b))
  | Within (Fin a), Infinity s =>
      if isZero a then Within NaN else Infinity (xorb (isNegative a) s)
  | Within (Fin a), Within (Fin b) => normalise (Big.times a b)
  end.

(** [x.plus(y)]: NaN when an operand is NaN and for the sum of the two
    opposite infinities; an infinity when an operand is infinite; the exact
    sum brought into the range otherwise. *)
Definition plus (x y : Extended) : Extended :=
  match x, y with
  | Within NaN, _ | _, Within NaN => Within NaN
  | Infinity s, Infinity s' => if Bool.eqb s s' then Infinity s else Within NaN
  | Infinity s, Within (Fin _) => Infinity s
  | Within (Fin _), Infinity s => Infinity s
  | Within (Fin a), Within (Fin b) => normalise (Big.plus a b)
  end.

End Ranged.

End Big.

(** A value the formatter is modelled on is read as a value with the
    infinities where one is expected. *)
Coercion Big.Within : Big.BigNumber >-> Big.Extended.

(** ** Strings

    Output strings are [string]; the strings the formatter builds from
    numbers are ASCII. *)
Module Str.

Open Scope string_scope.

Definition isDigit (c : ascii) : bool :=
  let n := N_of_ascii c in ((48 <=? n) && (n <=? 57))%N.

(** [\w] of the regular expressions: [A-Za-z0-9_]. *)
Definition isWord (c : ascii) : bool :=
  let n := N_of_ascii c in
  (((48 <=? n) && (n <=? 57)) || ((65 <=? n) && (n <=? 90))
   || ((97 <=? n) && (n <=? 122)) || (n =? 95))%N.

Fixpoint join (sep : string) (l : list string) : string :=
  match l with
  | [] => ""
  | [x] => x
  | x :: r => x ++ sep ++ join sep r
  end.

Fixpoint zeros (n : nat) : string :=
  match n with O => "" | S k => String "0" (zeros k) end.

(** [s.padStart(2, "0")]. *)
Definition padStart2 (s : string) : string :=
  zeros (2 - String.length s) ++ s.

(** The decimal digits of a natural number, most significant first. *)
Definition digitsN (n : N) : string := NilZero.string_of_uint (N.to_uint n).

(** The binary digits of a positive number. *)
Fixpoint bitsP (p : positive) : string :=
  match p with
  | xH => "1"
  | xO q => bitsP q ++ "0"
  | xI q => bitsP q ++ "1"
  end.

Fixpoint dropZeros (l : list ascii) : list ascii :=
  match l with
  | "0"%char :: r => dropZeros r
  | _ => l
  end.

(** The digits of [n] without trailing zeros, and how many were removed. *)
Definition significand (n : N) : string * nat :=
  let l := list_ascii_of_string (digitsN n) in
  let l' := rev (dropZeros (rev l)) in
  (string_of_list_ascii l', (List.length l - List.length l')%nat).

Definition signed (negative : bool) (s : string) : string :=
  if negative then "-" ++ s else s.

(** bignumber.js [toExponential(str, e)]. *)
Definition exponential (str : string) (e : Z) : string :=
  (match str with
   | String c (String _ _ as r) => String c ("." ++ r)
   | _ => str
   end)
  ++ (if (e <? 0)%Z then "e-" else "e+") ++ digitsN (Z.abs_N e).

(** bignumber.js [toFixedPoint(str, e, "0")]. *)
Definition fixedPoint (str : string) (e : Z) : string :=
  if (e <? 0)%Z then "0." ++ zeros (Z.to_nat (- e - 1)) ++ str
  else
    let len := Z.of_nat (String.length str) in
    if (len <? e + 1)%Z then str ++ zeros (Z.to_nat (e + 1 - len))
    else if (e + 1 <? len)%Z
         then substring 0 (Z.to_nat (e + 1)) str ++ "."
              ++ substring (Z.to_nat (e + 1)) (String.length str) str
         else str.

(** The normalised digits of a nonzero value and its decimal exponent. *)
Definition normal (a : Big.dec) : string * Z :=
  let (str, z) := significand (Z.abs_N (Big.coef a)) in
  (str, (Big.expo a + Z.of_nat z + Z.of_nat (String.length str) - 1)%Z).

(** [x.toString()]: exponential notation from 1e21 up and from 1e-7 down. *)
Definition toString (a : Big.dec) : string :=
  if (Big.coef a =? 0)%Z then "0"
  else
    let (str, e) := normal a in
    signed (Big.isNegative a)
      (if ((e <=? -7) || (21 <=? e))%Z then exponential str e
       else fixedPoint str e).

(** [x.toExponential()]. *)
Definition toExponential (a : Big.dec) : string :=
  if (Big.coef a =? 0)%Z then "0e+0"
  else let (str, e) := normal a in signed (Big.isNegative a) (exponential str e).

(** [x.toString(2)] of an integer. *)
Definition toString2 (z : Z) : string :=
  match z with
  | Z0 => "0"
  | Zpos p => bitsP p
  | Zneg p => "-" ++ bitsP p
  end.

Fixpoint digitRun (s : string) : nat :=
  match s with
  | String c r => if isDigit c then S (digitRun r) else O
  | EmptyString => O
  end.

(** [s.replace(/\B(?=(\d{3})+(?!\d))/g, ",")]: a comma goes in front of every
    digit that follows a word character and starts a run of digits whose
    length is a positive multiple of three. *)
Fixpoint commas (prevWord : bool) (s : string) : string :=
  match s with
  | EmptyString => EmptyString
  | String c r =>
      let n := digitRun s in
      let here := prevWord && negb (n =? 0)%nat && (n mod 3 =? 0)%nat in
      (if here then "," else "") ++ String c (commas (isWord c) r)
  end.

Definition groupThousands (s : string) : string := commas false s.

End Str.

(** ** What a JavaScript call completes with *)
Inductive JsError : Set :=
| Error (message : string)
| ReferenceError (name : string).

Inductive completion (A : Type) : Type :=
| Return (a : A)
| Throw (e : JsError).

Arguments Return {A} a.
Arguments Throw {A} e.

(** ** constants.js

    [constants.js] ([TimeTypes], [Time], [DEFAULT_UNITS],
    [DEFAULT_SEPARATORS]) is not among the sources. The magnitude table
    [Time] and the label table are parameters of the formatter and of the
    parser. *)

(** Modelled from the spec: [TimeTypes] of the missing [constants.js]. The 16
    canonical units are the spec's, largest first, in the names the code
    uses. *)
Inductive TimeType : Set :=
| Terayear | Gigayear | Megayear | Millennium | Century | Decade | Year
| Month | Week | Day | Hour | Minute | Second | Millisecond | Microsecond
| Nanosecond.

Definition TimeType_index (t : TimeType) : nat :=
  match t with
  | Terayear => 0 | Gigayear => 1 | Megayear => 2 | Millennium => 3
  | Century => 4 | Decade => 5 | Year => 6 | Month => 7 | Week => 8
  | Day => 9 | Hour => 10 | Minute => 11 | Second => 12 | Millisecond => 13
  | Microsecond => 14 | Nanosecond => 15
  end%nat.

Definition TimeType_eqb (a b : TimeType) : bool :=
  Nat.eqb (TimeType_index a) (TimeType_index b).

(** Modelled from the spec: the shape of an entry of the label table
    ([DEFAULT_UNITS] of the missing [constants.js], or the table given to the
    constructor). One unit's language assets are the [DEFAULT] and [COMPACT]
    labels that [addUnit] reads, and the labels stored under other property
    names (an exact count such as [1]). *)
Record UnitAsset : Set := mkUnit {
  DEFAULT : string;
  COMPACT : string;
  exact : list (string * string)
}.

(** Modelled from the spec: [DEFAULT_SEPARATORS] of the missing
    [constants.js]; the spec gives a single space for the left and for the
    right separator. *)
Definition DEFAULT_SEPARATORS : string * string := (" ", " ")%string.

(** A JavaScript object keyed by unit, in insertion order. *)
Definition TimeObject : Set := list (TimeType * Z).

Fixpoint objSet (o : TimeObject) (k : TimeType) (v : Z) : TimeObject :=
  match o with
  | [] => [(k, v)]
  | (k', v') :: r =>
      if TimeType_eqb k' k then (k', v) :: r else (k', v') :: objSet r k v
  end.

Fixpoint objGet (o : TimeObject) (k : TimeType) : option Z :=
  match o with
  | [] => None
  | (k', v') :: r => if TimeType_eqb k' k then Some v' else objGet r k
  end.

(** ** formatter.js *)
Module Formatter.

Import Big.

Section WithTables.

Variable Time : TimeType -> dec.
Variable units : TimeType -> UnitAsset.

(** The duration of each time type, largest first. *)
Definition kTimeDurations : list (TimeType * dec) :=
  map (fun t => (t, Time t))
    [Terayear; Gigayear; Megayear; Millennium; Century; Decade; Year; Month;
     Week; Day; Hour; Minute; Second; Millisecond; Microsecond; Nanosecond].

(** [Reflect.has(unit, time)] and [Reflect.get(unit, time)]: the property
    name is [time.toString()]. *)
Fixpoint Reflect_get (props : list (string * string)) (key : string)
  : option string :=
  match props with
  | [] => None
  | (k, v) :: r => if String.eqb k key then Some v else Reflect_get r key
  end.

(** [addUnit(time, unit, separator, options)]; [compact] is
    [options.compact === true]. [time] is a whole count. *)
Definition addUnit (time : dec) (unit : UnitAsset) (separator : string)
  (compact : bool) : string :=
  let formattedTime := Str.groupThousands (Str.toString time) in
  if compact then
    if 0 <? coef time
    then (formattedTime ++ COMPACT unit ++ separator)%string
    else ""%string
  else
    match Reflect_get (exact unit) (Str.toString time) with
    | Some label => (formattedTime ++ separator ++ label)%string
    | None => (formattedTime ++ separator ++ DEFAULT unit)%string
    end.

(** [output.length >= precision]; [None] for the loop without that test. *)
Definition enough {A : Type} (precision : option Z) (output : list A) : bool :=
  match precision with
  | Some p => p <=? Z.of_nat (List.length output)
  | None => false
  end.

(** The loop over [kTimeDurations] of [verbose] (lines 62-78), [compact]
    (166-179) and [elegant] (211-229): the three bodies are the same text up
    to what is pushed and to the precision test, which [compact] lacks.
    Returns the output array and what is left of the duration. *)
Fixpoint loop {A : Type} (precision : option Z) (push : dec -> TimeType -> A)
  (duration : dec) (output : list A) (ks : list (TimeType * dec))
  : list A * dec :=
  match ks with
  | [] => (output, duration)
  | (type, timeDuration) :: rest =>
      let division := dividedBy duration timeDuration in
      if isLessThan division (ofZ 1)
      then loop precision push duration output rest
      else
        let floored := integerValue_FLOOR division in
        let duration := minus duration (times floored timeDuration) in
        let output := output ++ [push floored type] in
        if enough precision output then (output, duration)
        else loop precision push duration output rest
  end.

(** A value computed and dropped, as in the statement [duration.abs();]. *)
Definition discarding {A B : Type} (_ : A) (kept : B) : B := kept.

Definition isEmpty (s : string) : bool :=
  match s with EmptyString => true | _ => false end.

(** [verbose(duration, precision, { left, right })]. Line 59 calls
    [duration.abs()] without keeping the result. Line 81 calls [addUnit] as a
    plain identifier, which no declaration of the module binds: evaluating
    that call raises a ReferenceError. *)
Definition verbose (duration : BigNumber) (precision : Z)
  (leftSeparator rightSeparator : string) : completion string :=
  match duration with
  | NaN => Throw (Error "Invalid duration")
  | Fin duration =>
      let negative := isNegative duration in
      let duration :=
        if negative then discarding (abs duration) duration else duration in
      let output :=
        fst (loop (Some precision)
               (fun floored type => addUnit floored (units type) leftSeparator false)
               duration [] kTimeDurations) in
      let joined := Str.join rightSeparator output in
      if isEmpty joined then Throw (ReferenceError "addUnit")
      else Return (Str.signed negative joined)
  end.

(** [binary(duration)]. *)
Definition binary (duration : BigNumber) : completion string :=
  match duration with
  | NaN => Throw (Error "Invalid duration")
  | Fin duration =>
      let seconds := integerValue_FLOOR (dividedBy duration (Time Second)) in
      Return (Str.toString2 (coef seconds))
  end.

(** [padWithZero(num)]. *)
Definition padWithZero (num : dec) : string := Str.padStart2 (Str.toString num).

(** [colon(duration)]. *)
Definition colon (duration : BigNumber) : completion string :=
  match duration with
  | NaN => Throw (Error "Invalid duration")
  | Fin duration =>
      let hours := integerValue_FLOOR (dividedBy duration (Time Hour)) in
      let duration := modulo duration (Time Hour) in
      let minutes := integerValue_FLOOR (dividedBy duration (Time Minute)) in
      let duration := modulo duration (Time Minute) in
      let seconds := integerValue_FLOOR (dividedBy duration (Time Second)) in
      Return (padWithZero hours ++ ":" ++ padWithZero minutes ++ ":"
              ++ padWithZero seconds)%string
  end.

(** [scientific(duration)]. *)
Definition scientific (duration : BigNumber) : completion string :=
  match duration with
  | NaN => Throw (Error "Invalid duration")
  | Fin duration => Return (Str.toExponential duration)
  end.

(** [compact(duration, { separator })]. *)
Definition compact (duration : BigNumber) (separator : string)
  : completion string :=
  match duration with
  | NaN => Throw (Error "Invalid duration")
  | Fin duration =>
      let negative := isNegative duration in
      let duration := if negative then abs duration else duration in
      let output :=
        fst (loop None
               (fun floored type => addUnit floored (units type) separator true)
               duration [] kTimeDurations) in
      Return (if (0 <? List.length output)%nat
              then Str.signed negative (Str.join separator output)
              else "0"%string)
  end.

(** [joinWithConjunction(output, separator)]. *)
Definition joinWithConjunction (output : list string) (separator : string)
  : string :=
  if (List.length output <=? 1)%nat then Str.join separator output
  else
    let lastItem := last output ""%string in
    let output := removelast output in
    (Str.join ", " output ++ " and " ++ lastItem ++ separator)%string.

(** [elegant(duration, precision, { left, right })]. *)
Definition elegant (duration : BigNumber) (precision : Z)
  (leftSeparator rightSeparator : string) : completion string :=
  match duration with
  | NaN => Throw (Error "Invalid duration")
  | Fin duration =>
      let negative := isNegative duration in
      let duration := if negative then abs duration else duration in
      let output :=
        fst (loop (Some precision)
               (fun floored type => addUnit floored (units type) leftSeparator false)
               duration [] kTimeDurations) in
      Return (Str.signed negative (joinWithConjunction output rightSeparator))
  end.

(** The loop of [object] (lines 252-256). *)
Fixpoint cascade (duration : dec) (result : TimeObject)
  (ks : list (TimeType * dec)) : TimeObject * dec :=
  match ks with
  | [] => (result, duration)
  | (type, timeDuration) :: rest =>
      let count := integerValue_FLOOR (dividedBy duration timeDuration) in
      let duration := modulo duration timeDuration in
      cascade duration (objSet result type (coef count)) rest
  end.

(** [object(duration)]. *)
Definition object (duration : BigNumber) : completion TimeObject :=
  match duration with
  | NaN => Throw (Error "Invalid duration")
  | Fin duration => Return (fst (cascade duration [] kTimeDurations))
  end.

End WithTables.

End Formatter.

(** ** duration.js

    Input text is a list of UTF-16 code units. *)
Module Parser.

Import Big.

Definition text : Set := list N.

Definition ofString (s : string) : text :=
  map N_of_ascii (list_ascii_of_string s).

Open Scope N_scope.

Definition between (lo hi c : N) : bool := (lo <=? c) && (c <=? hi).

(** What [toLowerCase] makes of one code unit, as far as the patterns below
    can tell. A-Z and the Greek capital mu become their small letters; the
    Kelvin sign (U+212A) becomes the letter k; the capital I with a dot above
    (U+0130) becomes the letter i followed by the combining dot (U+0307). Any
    other capital becomes a small letter that is, like the capital, outside
    everything the patterns name (letters a-z, mu, digits, the word
    characters, white space, signs and points): it is kept as written. *)
Definition lowerCase (c : N) : text :=
  if between 65 90 c then [c + 32]
  else if c =? 924 then [956]
  else if c =? 8490 then [107]
  else if c =? 304 then [105; 775]
  else [c].

(** [pattern.toLowerCase()]. *)
Definition toLowerCase (s : text) : text := flat_map lowerCase s.

Definition isDigit (c : N) : bool := between 48 57 c.

(** [\w]: [A-Za-z0-9_]. *)
Definition isWord (c : N) : bool :=
  isDigit c || between 65 90 c || between 97 122 c || (c =? 95).

(** [\s]: white space and line terminators. *)
Definition isSpace (c : N) : bool :=
  between 9 13 c || (c =? 32) || (c =? 160) || (c =? 5760)
  || between 8192 8202 c || (c =? 8232) || (c =? 8233) || (c =? 8239)
  || (c =? 8287) || (c =? 12288) || (c =? 65279).

(** [[a-zμ]] under the [i] flag: the letters, and the code units whose upper
    case is that of the Greek mu (mu, capital mu, the micro sign). *)
Definition isUnitChar (c : N) : bool :=
  between 97 122 c || between 65 90 c || (c =? 956) || (c =? 924) || (c =? 181).

Definition nonEmpty {A : Type} (l : list A) : bool :=
  match l with [] => false | _ => true end.

(** The longest prefix of [l] whose elements satisfy [p], and the rest. *)
Fixpoint span (p : N -> bool) (l : text) : text * text :=
  match l with
  | [] => ([], [])
  | c :: r => if p c then let (a, b) := span p r in (c :: a, b) else ([], l)
  end.

(** [commaRegex = /,/g], replaced by the empty string. *)
Definition removeCommas (s : text) : text :=
  filter (fun c => negb (c =? 44)) s.

Definition atWordEnd (l : text) : bool :=
  match l with [] => true | c :: _ => negb (isWord c) end.

(** How many code units [an?\b] matches, given what follows the letter a. *)
Definition aAnLength (afterA : text) : option nat :=
  match afterA with
  | c :: r =>
      if (c =? 110) || (c =? 78)
      then if atWordEnd r then Some 2%nat else None
      else if atWordEnd afterA then Some 1%nat else None
  | [] => Some 1%nat
  end.

(** [aAndAnRegex = /\ban?\b/gi], replaced by ["1"]. [prevWord] tells whether
    the code unit before [l] is a word character, [skip] how many code units
    of [l] belong to the match in progress. *)
Fixpoint replaceAAn (prevWord : bool) (skip : nat) (l : text) : text :=
  match l with
  | [] => []
  | c :: r =>
      match skip with
      | S k => replaceAAn (isWord c) k r
      | O =>
          let found :=
            if negb prevWord && ((c =? 97) || (c =? 65))
            then aAnLength r else None in
          match found with
          | Some len => 49 :: replaceAAn (isWord c) (len - 1) r
          | None => c :: replaceAAn (isWord c) 0 r
          end
      end
  end.

Definition optionalMinus (l : text) : text * text :=
  match l with
  | c :: r => if c =? 45 then ([c], r) else ([], l)
  | [] => ([], l)
  end.

Definition optionalSign (l : text) : text * text :=
  match l with
  | c :: r => if (c =? 45) || (c =? 43) then ([c], r) else ([], l)
  | [] => ([], l)
  end.

(** [\d*\.?\d+]: the digits, then a point only if digits follow it. *)
Definition matchDigits (l : text) : option (text * text) :=
  let (d1, l2) := span isDigit l in
  let plain := if nonEmpty d1 then Some (d1, l2) else None in
  match l2 with
  | c :: l3 =>
      if c =? 46
      then let (d2, l4) := span isDigit l3 in
           if nonEmpty d2 then Some (d1 ++ c :: d2, l4) else plain
      else plain
  | [] => plain
  end.

(** [(?:e[-+]?\d+)?]. *)
Definition matchExponent (l : text) : text * text :=
  match l with
  | c :: r =>
      if (c =? 101) || (c =? 69)
      then let (sg, r1) := optionalSign r in
           let (d, r2) := span isDigit r1 in
           if nonEmpty d then (c :: sg ++ d, r2) else ([], l)
      else ([], l)
  | [] => ([], l)
  end.

(** One match of [patternRegex] (flags [gi]) starting at the head of [l]:
    group 1 is an optional minus, [\d*\.?\d+] and the optional exponent;
    white space follows; group 2 is the run of unit letters. Returns the two
    groups and the length of the whole match. *)
Definition matchAt (l : text) : option (text * text * nat) :=
  let (sg, l1) := optionalMinus l in
  match matchDigits l1 with
  | None => None
  | Some (num, l2) =>
      let (ex, l3) := matchExponent l2 in
      let (ws, l4) := span isSpace l3 in
      let (un, _) := span isUnitChar l4 in
      let i := sg ++ num ++ ex in
      Some (i, un, (List.length i + List.length ws + List.length un)%nat)
  end.

(** The successive matches of [patternRegex] in [l], left to right; [skip]
    counts the code units of [l] the previous match still covers. *)
Fixpoint scan (skip : nat) (l : text) : list (text * text) :=
  match l with
  | [] => []
  | _ :: r =>
      match skip with
      | S k => scan k r
      | O =>
          match matchAt l with
          | Some (i, un, len) => (i, un) :: scan (len - 1) r
          | None => scan 0 r
          end
      end
  end.

Definition digitsToZ (d : text) : Z :=
  fold_left (fun acc c => (acc * 10 + Z.of_N (c - 48))%Z) d 0%Z.

(** The exponent part of a decimal literal, which must end the string. *)
Definition parseExponent (l : text) : option Z :=
  match l with
  | [] => Some 0%Z
  | c :: r =>
      if (c =? 101) || (c =? 69)
      then let (sg, r1) := optionalSign r in
           let (d, r2) := span isDigit r1 in
           if nonEmpty d && negb (nonEmpty r2)
           then Some (match sg with
                      | [45] => (- digitsToZ d)%Z
                      | _ => digitsToZ d
                      end)
           else None
      else None
  end.

(** The decimal a numeric string denotes, as the constructor reads it: an
    optional minus, digits with an optional fraction, an optional exponent;
    [None] for any other string. *)
Definition literal (s : text) : option dec :=
  let (sg, s1) := optionalMinus s in
  let (d1, s2) := span isDigit s1 in
  let '(d2, s3) :=
    match s2 with
    | c :: r => if c =? 46 then span isDigit r else ([], s2)
    | [] => ([], s2)
    end in
  if nonEmpty d1 || nonEmpty d2 then
    match parseExponent s3 with
    | Some e =>
        let c := digitsToZ (d1 ++ d2) in
        Some (mkDec (if nonEmpty sg then (- c)%Z else c)
                    (e - Z.of_nat (List.length d2))%Z)
    | None => None
    end
  else None.

(** [new BigNumber(str)]: the decimal read, brought into the exponent range;
    NaN for a string that is not numeric. *)
Definition newBigNumber (s : text) : Extended :=
  match literal s with
  | Some d => normalise d
  | None => NaN
  end.

Fixpoint textEqb (a b : text) : bool :=
  match a, b with
  | [], [] => true
  | x :: a', y :: b' => (x =? y) && textEqb a' b'
  | _, _ => false
  end.

(** [new Map(entries).get(key)]: the value of the last entry under [key]. *)
Definition Map_get {V : Type} (entries : list (text * V)) (key : text)
  : option V :=
  fold_left (fun found kv => if textEqb (fst kv) key then Some (snd kv) else found)
            entries None.

Close Scope N_scope.

Section WithTime.

Variable Time : TimeType -> dec.

Definition aliases (t : TimeType) (names : list string) : list (text * dec) :=
  map (fun s => (ofString s, Time t)) names.

Local Open Scope string_scope.

(** Maps the unit aliases to the value of their unit. *)
Definition tokens : list (text * dec) :=
  (aliases Nanosecond ["nanoseconds"; "nanosecond"; "nsecs"; "nsec"; "ns"; "n"]
   ++ aliases Microsecond ["microseconds"; "microsecond"; "musecs"; "musec";
                           "mus"; "mu"]
   ++ [([956; 115]%N, Time Microsecond)]
   ++ aliases Microsecond ["us"; "u"]
   ++ aliases Millisecond ["milliseconds"; "millisecond"; "msecs"; "msec"; "ms"]
   ++ aliases Second ["seconds"; "second"; "secon"; "seco"; "secs"; "sec";
                      "se"; "s"]
   ++ aliases Minute ["minutes"; "minute"; "minu"; "mins"; "min"; "mi"; "mn";
                      "m"]
   ++ aliases Hour ["hour"; "hours"; "hrs"; "hr"; "hs"; "h"]
   ++ aliases Day ["days"; "day"; "dys"; "da"; "dy"; "ds"; "d"]
   ++ aliases Week ["weeks"; "week"; "wks"; "we"; "ws"; "wk"; "w"]
   ++ aliases Month ["months"; "month"; "mos"; "mo"; "b"]
   ++ aliases Year ["years"; "year"; "yrs"; "yea"; "ye"; "yr"; "ys"; "y"]
   ++ aliases Decade ["decades"; "decade"; "decad"; "deca"; "decs"; "dec"; "de"]
   ++ aliases Century ["centuries"; "century"; "cents"; "cent"; "cen"; "ce";
                       "c"]
   ++ aliases Millennium ["millennia"; "milleniums"; "millenium"; "millennias";
                          "milly"; "mill"; "mil"; "ml"]
   ++ aliases Megayear ["megayears"; "megayear"; "megayear"; "megayea";
                        "megayes"; "megayer"; "megay"; "mega"; "megayrs";
                        "megary"; "myr"]
   ++ aliases Gigayear ["gigayears"; "gigayear"; "gigayea"; "gigayes";
                        "gigayer"; "gigay"; "gyr"; "gigary"; "gy"]
   ++ aliases Terayear ["terayears"; "terayear"; "terayea"; "terayer";
                        "terayes"; "teray"; "tera"; "teryrs"; "teryr"; "tery";
                        "tyr"; "ty"])%list.

Local Close Scope string_scope.

(** The matches the callback of [calculateOffset] is called with. *)
Definition matches (pattern : text) : list (text * text) :=
  scan 0 (replaceAAn false 0 (removeCommas pattern)).

(** The callback of line 196 on the state [(result, valid)]. [times] takes
    the token through the constructor, as every operation of the library does
    with its argument. The callback also adds [n] to the field of the
    instance named after the unit ([this[mappings.get(token)] += n]); no
    method reads those fields and they are not part of the value computed
    here. *)
Definition callback (state : Extended * bool) (m : text * text)
  : Extended * bool :=
  let (i, units) := m in
  match Map_get tokens units with
  | Some token =>
      let n := newBigNumber i in
      (Ranged.plus (fst state) (Ranged.times n (normalise token)), true)
  | None => state
  end.

(** [calculateOffset(pattern)]. *)
Definition calculateOffset (pattern : text) : Extended :=
  let (result, valid) :=
    fold_left callback (matches pattern) (Within (Fin (ofZ 0)), false) in
  if valid then result else NaN.

(** [new Duration(pattern).ms]. *)
Definition Duration (pattern : text) : Extended :=
  calculateOffset (toLowerCase pattern).

End WithTime.

End Parser.

(** ** Tables for concrete runs *)

(** Modelled from the spec: the magnitude table [Time] of the missing
    [constants.js]. The spec fixes the day at 24 x 3600 x 1000 ticks and the
    hour, minute and second with it (3,661,000 ticks are 1h 1m 1s), so the
    tick is the millisecond; formatter.js gives the month as 29.53059 days.
    The other magnitudes are the customary ones (a 365-day year and its
    decimal multiples). *)
Definition exampleTime (t : TimeType) : Big.dec :=
  match t with
  | Nanosecond => Big.mkDec 1 (-6)
  | Microsecond => Big.mkDec 1 (-3)
  | Millisecond => Big.ofZ 1
  | Second => Big.ofZ 1000
  | Minute => Big.ofZ 60000
  | Hour => Big.ofZ 3600000
  | Day => Big.ofZ 86400000
  | Week => Big.ofZ 604800000
  | Month => Big.mkDec 2551442976 0
  | Year => Big.ofZ 31536000000
  | Decade => Big.ofZ 315360000000
  | Century => Big.ofZ 3153600000000
  | Millennium => Big.ofZ 31536000000000
  | Megayear => Big.mkDec 31536 12
  | Gigayear => Big.mkDec 31536 15
  | Terayear => Big.mkDec 31536 18
  end.

(** Modelled from the spec: the built-in English label table is in
    [constants.js]; each unit has a default label, a compact label and a label
    for the count 1. *)
Definition exampleUnits (t : TimeType) : UnitAsset :=
  let unit (one many short : string) := mkUnit many short [("1"%string, one)] in
  match t with
  | Nanosecond => unit "nanosecond" "nanoseconds" "ns"
  | Microsecond => unit "microsecond" "microseconds" "us"
  | Millisecond => unit "millisecond" "milliseconds" "ms"
  | Second => unit "second" "seconds" "s"
  | Minute => unit "minute" "minutes" "m"
  | Hour => unit "hour" "hours" "h"
  | Day => unit "day" "days" "d"
  | Week => unit "week" "weeks" "w"
  | Month => unit "month" "months" "mo"
  | Year => unit "year" "years" "y"
  | Decade => unit "decade" "decades" "dec"
  | Century => unit "century" "centuries" "c"
  | Millennium => unit "millennium" "millennia" "ml"
  | Megayear => unit "megayear" "megayears" "myr"
  | Gigayear => unit "gigayear" "gigayears" "gyr"
  | Terayear => unit "terayear" "terayears" "tyr"
  end%string.

(** ** Vocabulary of the statements *)

(** An emitted entry: the count and its unit. *)
Abbreviation entry := (Big.dec * TimeType)%type.

Section Vocabulary.

Import Big.

Variable Time : TimeType -> dec.

(** The canonical units, largest first. *)
Definition canonicalUnits : list TimeType :=
  [Terayear; Gigayear; Megayear; Millennium; Century; Decade; Year; Month;
   Week; Day; Hour; Minute; Second; Millisecond; Microsecond; Nanosecond].

(** The magnitudes decrease strictly along the canonical order. *)
Definition descending : Prop :=
  forall t1 t2 : TimeType,
    (TimeType_index t1 < TimeType_index t2)%nat ->
    (toQ (Time t2) < toQ (Time t1))%Q.

(** [a] is a unit of strictly larger magnitude than [b]. *)
Definition larger (a b : TimeType) : Prop := (toQ (Time b) < toQ (Time a))%Q.


(** A count is a whole number, at least 1. *)
Definition wholeCount (e : entry) : Prop :=
  expo (fst e) = 0 /\ 1 <= coef (fst e).

(** The sum of count x unit magnitude over the entries. *)
Definition entrySum (es : list entry) : Q :=
  fold_right (fun e acc => toQ (fst e) * toQ (Time (snd e)) + acc)%Q 0%Q es.

(** The sum of count x unit magnitude over the keys of an object. *)
Definition objectSum (o : TimeObject) : Q :=
  fold_right (fun kv acc => inject_Z (snd kv) * toQ (Time (fst kv)) + acc)%Q
             0%Q o.

(** The quantity a matched number denotes. *)
Definition quantity (i : Parser.text) : Q :=
  match Parser.literal i with
  | Some n => toQ n
  | None => 0%Q
  end.

(** The alias of a match resolves in the unit table. *)
Definition resolves (m : Parser.text * Parser.text) : bool :=
  match Parser.Map_get (Parser.tokens Time) (snd m) with
  | Some _ => true
  | None => false
  end.

(** The sum, over the matches whose alias resolves, of quantity x unit
    magnitude. *)
Definition tokenSum (ms : list (Parser.text * Parser.text)) : Q :=
  fold_right
    (fun m acc =>
       match Parser.Map_get (Parser.tokens Time) (snd m) with
       | Some token => (quantity (fst m) * toQ token + acc)%Q
       | None => acc
       end)
    0%Q ms.

(** Adding one token stays within the exponent range: the number read, the
    magnitude of the unit, their product and the total with it are all values
    the library holds as they are. *)
Definition tokenWithin (total n token : dec) : bool :=
  inRange n && inRange token && inRange (times n token)
  && inRange (plus total (times n token)).

(** The whole parse stays within the exponent range: [tokenWithin] for every
    match whose alias resolves, from the running total [total] on. *)
Fixpoint withinRange (total : dec) (ms : list (Parser.text * Parser.text))
  : bool :=
  match ms with
  | [] => true
  | m :: rest =>
      match Parser.Map_get (Parser.tokens Time) (snd m) with
      | Some token =>
          match Parser.literal (fst m) with
          | Some n =>
              tokenWithin total n token
              && withinRange (plus total (times n token)) rest
          | None => false
          end
      | None => withinRange total rest
      end
  end.

(** The output array [verbose] and [elegant] build: the same loop, the same
    precision, the same [addUnit] call. *)
Definition emitted (units : TimeType -> UnitAsset) (duration : dec)
  (precision : Z) (leftSeparator : string) : list string :=
  fst (Formatter.loop (Some precision)
         (fun floored type =>
            Formatter.addUnit floored (units type) leftSeparator false)
         duration [] (Formatter.kTimeDurations Time)).

End Vocabulary.

(** The joining of [elegant] as the specification words it: all entries but
    the last joined with a comma and a space, the last attached with the word
    and, nothing after it; one entry alone is left as it is. *)
Definition conjunctionAsStated (output : list string) : string :=
  match output with
  | [] => ""%string
  | [e] => e
  | _ => (Str.join ", " (removelast output) ++ " and "
          ++ last output "")%string
  end.

(** The shapes of the text the scanner captures. *)
Section ScannerVocabulary.

Import Parser.

Local Open Scope N_scope.

(** [l] is empty or starts with a code unit outside [p]. *)
Definition stops (p : N -> bool) (l : text) : Prop :=
  match l with [] => True | c :: _ => p c = false end.

(** An exponent text is empty or starts with the letter e. *)
Definition exponentLike (ex : text) : Prop :=
  match ex with [] => True | c :: _ => (c =? 101) || (c =? 69) = true end.

(** The shapes [\d*\.?\d+] matches. *)
Inductive numberLike : text -> Prop :=
| whole (d1 : text) :
    forallb isDigit d1 = true -> nonEmpty d1 = true -> numberLike d1
| fractional (d1 d2 : text) :
    forallb isDigit d1 = true -> forallb isDigit d2 = true ->
    nonEmpty d2 = true -> numberLike (d1 ++ 46 :: d2).

End ScannerVocabulary.

(** ** duration.js: the [Duration] class

    A [Duration] is built from a pattern and keeps its magnitude in [ms]. The
    constructor calls [super()] without an argument, so a [Duration] always
    formats with the [DEFAULT_UNITS] of the missing [constants.js], which is a
    parameter here. Each rendering method passes [this.ms] and its own
    arguments, with their defaults, to the method of the formatter. The
    formatter is modelled on NaN and on finite magnitudes: for an infinite
    [ms] a rendering method gives [None], which stands for a rendering that
    is not modelled. [dateFrom] and [fromNow] build a [Date] and are not
    modelled. *)
Module DurationClass.

Import Big.

(** The [separators] argument: an object whose [left] and [right] may be
    missing. *)
Record Separators : Set := mkSeparators {
  left : option string;
  right : option string
}.

Record DurationObject : Set := mkDuration { ms : Extended }.

Definition orDefault {A : Type} (given : option A) (default : A) : A :=
  match given with Some a => a | None => default end.

(** The parameter pattern [{ left: leftSeparator = DEFAULT_SEPARATORS.left,
    right: rightSeparator = DEFAULT_SEPARATORS.right } = DEFAULT_SEPARATORS]
    of [verbose] and [elegant] in formatter.js. *)
Definition separatorsOf (separators : option Separators) : string * string :=
  match separators with
  | None => DEFAULT_SEPARATORS
  | Some s => (orDefault (left s) (fst DEFAULT_SEPARATORS),
               orDefault (right s) (snd DEFAULT_SEPARATORS))
  end.

(** [super.method(this.ms, ...)], where the formatter is modelled. *)
Definition super {A : Type} (this : DurationObject)
  (method : BigNumber -> completion A) : option (completion A) :=
  match ms this with
  | Within duration => Some (method duration)
  | Infinity _ => None
  end.

Section WithTables.

Variable Time : TimeType -> dec.
Variable DEFAULT_UNITS : TimeType -> UnitAsset.

(** [new Duration(pattern)]. *)
Definition new (pattern : Parser.text) : DurationObject :=
  mkDuration (Parser.Duration Time pattern).

(** [verbose(precision = 7, separators = DEFAULT_SEPARATORS)]. *)
Definition verbose (this : DurationObject) (precision : option Z)
  (separators : option Separators) : option (completion string) :=
  let (l, r) := separatorsOf separators in
  super this (fun duration =>
    Formatter.verbose Time DEFAULT_UNITS duration (orDefault precision 7) l r).

(** [binary()]. *)
Definition binary (this : DurationObject) : option (completion string) :=
  super this (Formatter.binary Time).

(** [colon()]. *)
Definition colon (this : DurationObject) : option (completion string) :=
  super this (Formatter.colon Time).

(** [scientific()]. *)
Definition scientific (this : DurationObject) : option (completion string) :=
  super this Formatter.scientific.

(** [compact(options = { separator: " " })]; the formatter reads the
    separator with the pattern [{ separator = " " } = {}]. The outer [option]
    is the [options] argument, the inner one its [separator] property. *)
Definition compact (this : DurationObject) (options : option (option string))
  : option (completion string) :=
  super this (fun duration =>
    Formatter.compact Time DEFAULT_UNITS duration
      (orDefault (orDefault options (Some " "%string)) " "%string)).

(** [elegant(precision = 7, separators = DEFAULT_SEPARATORS)]. *)
Definition elegant (this : DurationObject) (precision : option Z)
  (separators : option Separators) : option (completion string) :=
  let (l, r) := separatorsOf separators in
  super this (fun duration =>
    Formatter.elegant Time DEFAULT_UNITS duration (orDefault precision 7) l r).

(** [object()]. *)
Definition object (this : DurationObject) : option (completion TimeObject) :=
  super this (Formatter.object Time).

End WithTables.

End DurationClass.

(** ** Reading back what the formatter prints *)

(** The number a string of binary digits denotes, most significant first. *)
Fixpoint bitsValue (acc : Z) (s : string) : option Z :=
  match s with
  | EmptyString => Some acc
  | String c r =>
      if Ascii.eqb c "0" then bitsValue (2 * acc) r
      else if Ascii.eqb c "1" then bitsValue (2 * acc + 1) r
      else None
  end.

(** The integer a base-2 numeral denotes: an optional minus, then at least
    one binary digit. *)
Definition binaryValue (s : string) : option Z :=
  match s with
  | EmptyString => None
  | String c r =>
      if Ascii.eqb c "-"
      then match r with
           | EmptyString => None
           | _ => option_map Z.opp (bitsValue 0 r)
           end
      else bitsValue 0 s
  end.

(** A string without its commas. *)
Fixpoint withoutCommas (s : string) : string :=
  match s with
  | EmptyString => EmptyString
  | String c r =>
      if Ascii.eqb c "," then withoutCommas r else String c (withoutCommas r)
  end.

Fixpoint countCommas (s : string) : nat :=
  match s with
  | EmptyString => O
  | String c r => ((if Ascii.eqb c "," then 1 else 0) + countCommas r)%nat
  end.

Fixpoint allDigits (s : string) : bool :=
  match s with
  | EmptyString => true
  | String c r => Str.isDigit c && allDigits r
  end.

(** ** Texts the parser is tried on *)

(** The text with its ASCII small letters turned into capitals. *)
Definition upperCase (s : Parser.text) : Parser.text :=
  map (fun c => if Parser.between 97 122 c then (c - 32)%N else c) s.

(** A text without any code unit a unit alias can be made of: no letter, no
    mu, no micro sign. *)
Definition noLetters (s : Parser.text) : bool :=
  forallb (fun c => negb (Parser.isUnitChar c)) s.

(** A text whose only letters are i and k: what [toLowerCase] makes of a text
    without letters, where the Kelvin sign and the dotted capital I are the
    code units that turn into letters. *)
Definition isIK (c : N) : bool := ((c =? 105) || (c =? 107))%N.

Definition lettersIK (s : Parser.text) : bool :=
  forallb (fun c => negb (Parser.isUnitChar c) || isIK c) s.

(** ** plugins/localization/index.js: [replacePlaceholders]

    [string.replace(/\{(\w+)\}/g, (match, placeholder) =>
    placeholders[placeholder] || match)]. The placeholders object, the
    truthiness of its values and their conversion to text belong to the
    JavaScript runtime: [lookup name] stands for the read
    [placeholders[name]], which finds own properties and inherited ones alike
    (an ordinary object inherits [constructor], [toString] and the like, all
    of them truthy). It is the text of the value read when that value is
    truthy, and [None] when the read gives [undefined] or a falsy value (the
    callback then returns the match itself). *)
Module Localization.

Import Parser.

Section WithPlaceholders.

Variable lookup : text -> option text.

(** One match of the pattern at the head of [l]: an opening brace, the
    longest run of word characters, which is not empty, and a closing brace.
    Returns the name and the length of the match. *)
Definition matchPlaceholder (l : text) : option (text * nat) :=
  match l with
  | c :: r =>
      if (c =? 123)%N
      then let (name, rest) := span isWord r in
           match rest with
           | c' :: _ =>
               if nonEmpty name && (c' =? 125)%N
               then Some (name, (List.length name + 2)%nat)
               else None
           | [] => None
           end
      else None
  | [] => None
  end.

(** The text with every match replaced, left to right; [skip] counts the
    code units of [l] the previous match still covers. What a match is
    replaced with is not scanned again. *)
Fixpoint replaceFrom (skip : nat) (l : text) : text :=
  match l with
  | [] => []
  | c :: r =>
      match skip with
      | S k => replaceFrom k r
      | O =>
          match matchPlaceholder l with
          | Some (name, len) =>
              match lookup name with
              | Some value => value
              | None => firstn len l
              end ++ replaceFrom (len - 1) r
          | None => c :: replaceFrom 0 r
          end
      end
  end.

(** [replacePlaceholders(string, placeholders)]. *)
Definition replacePlaceholders (string : text) : text := replaceFrom 0 string.

End WithPlaceholders.

(** The names the callback is called with: group 1 of every match, left to
    right; [skip] as in [replaceFrom]. *)
Fixpoint namesFrom (skip : nat) (l : text) : list text :=
  match l with
  | [] => []
  | _ :: r =>
      match skip with
      | S k => namesFrom k r
      | O =>
          match matchPlaceholder l with
          | Some (name, len) => name :: namesFrom (len - 1) r
          | None => namesFrom 0 r
          end
      end
  end.

Definition names (string : text) : list text := namesFrom 0 string.

End Localization.

(** A text without an opening brace. *)
Definition noBrace (s : Parser.text) : bool :=
  forallb (fun c => negb (c =? 123)%N) s.

(** ** plugins/localization/index.js: [getKey], [getRaw], [getLanguages]

    The instance is taken after its construction: [initialized] and the
    [languages] map, whose values are what [JSON.parse] returned. Loading the
    files ([init], [processDirectory], [pathExists], the reload timer) is
    input and output and is not modelled. *)
Module LocalizationKeys.

Import Parser.

Section Runtime.

(** JSON numbers as the runtime holds them; only whether one is zero matters
    to the code. *)
Variable number : Set.
Variable isZero : number -> bool.

(** The objects of the runtime that are not JSON values: the functions and
    the like that property access finds on prototypes. *)
Variable native : Set.

#[warnings="-register-all"]
Inductive Json : Set :=
| JNull
| JBool (b : bool)
| JNum (n : number)
| JStr (s : text)
| JArr (items : list Json)
| JObj (props : list (text * Json)).

Inductive Value : Set :=
| Undefined
| OfJson (j : Json)
| Native (f : native).

(** Property access that does not end on an own property of a plain object:
    array elements and lengths, characters of strings, and whatever the
    prototypes hold. *)
Variable member : Json -> text -> Value.
Variable nativeMember : native -> text -> Value.

(** A value in a condition. *)
Definition truthy (v : Value) : bool :=
  match v with
  | Undefined => false
  | OfJson JNull => false
  | OfJson (JBool b) => b
  | OfJson (JNum n) => negb (isZero n)
  | OfJson (JStr s) => nonEmpty s
  | OfJson (JArr _) => true
  | OfJson (JObj _) => true
  | Native _ => true
  end.

(** [value[key]]: an own property of a plain object first (of two properties
    with one name [JSON.parse] keeps the last). [None] is the TypeError of a
    property read on [undefined] or [null]. *)
Definition get (v : Value) (key : text) : option Value :=
  match v with
  | Undefined => None
  | OfJson JNull => None
  | OfJson (JObj props) =>
      Some match Map_get props key with
           | Some j => OfJson j
           | None => member (JObj props) key
           end
  | OfJson j => Some (member j key)
  | Native f => Some (nativeMember f key)
  end.

(** [key.split(".")]. *)
Fixpoint split (s : text) : list text :=
  match s with
  | [] => [[]]
  | c :: r =>
      if (c =? 46)%N then [] :: split r
      else match split r with
           | h :: t => (c :: h) :: t
           | [] => [[c]]
           end
  end.

Inductive Failure : Set :=
| NotInitialized
| InvalidLanguage (received : text)
| InvalidKey (received : text)
| TypeError.

(** The message of the error thrown; a TypeError's is the runtime's. *)
Definition message (f : Failure) : option text :=
  match f with
  | NotInitialized => Some (ofString "Localization has not been initialized.")
  | InvalidLanguage language =>
      Some (ofString "Invalid language provided. Expected a valid language. Received "
            ++ language)
  | InvalidKey key =>
      Some (ofString "Invalid key provided. Expected a valid key. Received "
            ++ key)
  | TypeError => None
  end.

Inductive outcome (A : Type) : Type :=
| Returns (a : A)
| Throws (f : Failure).

Arguments Returns {A} a.
Arguments Throws {A} f.

Record Instance : Set := mkInstance {
  initialized : bool;
  languages : list (text * Json)
}.

(** The loop of [getKey] over the parts of the key (lines 111-117). *)
Fixpoint descend (key : text) (nestedValue : Value) (keys : list text)
  : outcome Value :=
  match keys with
  | [] => Returns nestedValue
  | nestedKey :: rest =>
      match get nestedValue nestedKey with
      | None => Throws TypeError
      | Some v =>
          if truthy v then descend key v rest else Throws (InvalidKey key)
      end
  end.

(** [getKey(language, key, placeholders)]. [placeholders] is [None] for an
    object without own enumerable keys, as the default [{}], and otherwise
    the lookup [replacePlaceholders] uses. *)
Definition getKey (this : Instance) (language key : text)
  (placeholders : option (text -> option text)) : outcome Value :=
  if negb (initialized this) then Throws NotInitialized
  else
    match Map_get (languages this) language with
    | None => Throws (InvalidLanguage language)
    | Some languageData =>
        if negb (truthy (OfJson languageData))
        then Throws (InvalidLanguage language)
        else
          match descend key (OfJson languageData) (split key) with
          | Throws f => Throws f
          | Returns nestedValue =>
              Returns
                match nestedValue, placeholders with
                | OfJson (JStr s), Some lookup =>
                    OfJson (JStr (Localization.replacePlaceholders lookup s))
                | _, _ => nestedValue
                end
          end
    end.

(** [getRaw(language)]. *)
Definition getRaw (this : Instance) (language : text) : outcome Json :=
  if negb (initialized this) then Throws NotInitialized
  else
    match Map_get (languages this) language with
    | None => Throws (InvalidLanguage language)
    | Some languageData =>
        if negb (truthy (OfJson languageData))
        then Throws (InvalidLanguage language)
        else Returns languageData
    end.

(** [getLanguages()]. *)
Definition getLanguages (this : Instance) : outcome (list (text * Json)) :=
  if negb (initialized this) then Throws NotInitialized
  else Returns (languages this).

(** The value found by following own properties of nested objects along the
    names, every one of them truthy. *)
Fixpoint valueAt (j : Json) (names : list text) : option Json :=
  match names with
  | [] => Some j
  | name :: rest =>
      match j with
      | JObj props =>
          match Map_get props name with
          | Some j' => if truthy (OfJson j') then valueAt j' rest else None
          | None => None
          end
      | _ => None
      end
  end.

End Runtime.

Arguments JNull {number}.
Arguments JBool {number} b.
Arguments JStr {number} s.
Arguments Undefined {number native}.
Arguments Returns {A} a.
Arguments Throws {A} f.

(** The names joined with dots. *)
Fixpoint dotted (names : list text) : text :=
  match names with
  | [] => []
  | [name] => name
  | name :: rest => name ++ 46%N :: dotted rest
  end.

(** A text without a dot. *)
Definition noDot (s : text) : bool := forallb (fun c => negb (c =? 46)%N) s.

End LocalizationKeys.

(** An instance for concrete runs: one language, "en", whose file held
    [{"greeting": {"hello": "Hi {user}", "empty": ""}}]; numbers are taken
    as integers. *)
Definition exampleData : LocalizationKeys.Json Z :=
  LocalizationKeys.JObj Z
    [(Parser.ofString "greeting",
      LocalizationKeys.JObj Z
        [(Parser.ofString "hello",
          LocalizationKeys.JStr (Parser.ofString "Hi {user}"));
         (Parser.ofString "empty", LocalizationKeys.JStr [])])].

Definition exampleInstance : LocalizationKeys.Instance Z :=
  LocalizationKeys.mkInstance Z true [(Parser.ofString "en", exampleData)].

(** * Properties *)

(** ** Arithmetic of the decimal values *)
Section BigFacts.

Import Big.

Local Open Scope Q_scope.

Lemma ten_neq_0 : ~ (10 # 1) == 0.
Proof. intro H; discriminate H. Qed.

Lemma toQ_shift (c e k : Z) :
  (0 <= k)%Z ->
  inject_Z (c * pow10 k) * (10 # 1) ^ e == inject_Z c * (10 # 1) ^ (e + k).
Proof.
  intro Hk. unfold pow10.
  rewrite inject_Z_mult, Zpower_Qpower by exact Hk.
  rewrite Qpower_plus by exact ten_neq_0.
  change (inject_Z 10) with (10 # 1). ring.
Qed.

Lemma toQ_scaleTo (e : Z) (d : dec) :
  (e <= expo d)%Z -> inject_Z (scaleTo e d) * (10 # 1) ^ e == toQ d.
Proof.
  intro He. unfold scaleTo, toQ.
  rewrite toQ_shift by lia.
  replace (e + (expo d - e))%Z with (expo d) by lia. reflexivity.
Qed.

Lemma toQ_plus (a b : dec) : toQ (plus a b) == toQ a + toQ b.
Proof.
  unfold plus. set (e := Z.min (expo a) (expo b)).
  rewrite <- (toQ_scaleTo e a), <- (toQ_scaleTo e b) by (subst e; lia).
  unfold toQ; cbn [coef expo]. rewrite inject_Z_plus. ring.
Qed.

Lemma toQ_minus (a b : dec) : toQ (minus a b) == toQ a - toQ b.
Proof.
  unfold minus. set (e := Z.min (expo a) (expo b)).
  rewrite <- (toQ_scaleTo e a), <- (toQ_scaleTo e b) by (subst e; lia).
  unfold toQ; cbn [coef expo].
  unfold Z.sub at 1. rewrite inject_Z_plus, inject_Z_opp. ring.
Qed.

Lemma toQ_times (a b : dec) : toQ (times a b) == toQ a * toQ b.
Proof.
  unfold times, toQ; cbn [coef expo].
  rewrite inject_Z_mult, Qpower_plus by exact ten_neq_0. ring.
Qed.

Lemma toQ_ofZ (z : Z) : toQ (ofZ z) == inject_Z z.
Proof. unfold toQ, ofZ; cbn. ring. Qed.

Lemma pow10_pos (k : Z) : (0 <= k)%Z -> (0 < pow10 k)%Z.
Proof. intro Hk. unfold pow10. apply Z.pow_pos_nonneg; lia. Qed.

(** A quotient that is not below 1 floors to a count of at least 1. *)
Lemma floorZ_ge_1 (d : dec) :
  isLessThan d (ofZ 1) = false -> (1 <= floorZ d)%Z.
Proof.
  unfold isLessThan, floorZ, scaleTo, ofZ; cbn [coef expo].
  intro H. apply Z.ltb_ge in H.
  destruct (Z.leb_spec 0 (expo d)) as [Hp | Hn].
  - rewrite Z.min_r in H by lia.
    replace (0 - 0)%Z with 0%Z in H by lia.
    replace (expo d - 0)%Z with (expo d) in H by lia.
    change (pow10 0) with 1%Z in H. lia.
  - rewrite Z.min_l in H by lia.
    replace (expo d - expo d)%Z with 0%Z in H by lia.
    replace (0 - expo d)%Z with (- expo d)%Z in H by lia.
    change (pow10 0) with 1%Z in H.
    assert (Hpos : (0 < pow10 (- expo d))%Z) by (apply pow10_pos; lia).
    apply Z.div_le_lower_bound; lia.
Qed.

End BigFacts.

(** ** The loop over the units *)
Section LoopFacts.

Import Big Formatter.

Variable Time : TimeType -> dec.

Local Open Scope Q_scope.

Lemma entrySum_app (a b : list entry) :
  entrySum Time (a ++ b) == entrySum Time a + entrySum Time b.
Proof.
  induction a as [| x a IH].
  - change (entrySum Time []) with 0. cbn [app]. ring.
  - change (entrySum Time ((x :: a) ++ b))
      with (toQ (fst x) * toQ (Time (snd x)) + entrySum Time (a ++ b)).
    change (entrySum Time (x :: a))
      with (toQ (fst x) * toQ (Time (snd x)) + entrySum Time a).
    rewrite IH. ring.
Qed.

(** What the loop pushes does not steer it: the output of any instance is
    the image of the entries. *)
Lemma loop_map {A : Type} (precision : option Z) (push : dec -> TimeType -> A)
  (ks : list (TimeType * dec)) :
  forall (duration : dec) (es : list entry),
    loop precision push duration (map (fun e => push (fst e) (snd e)) es) ks
    = (map (fun e => push (fst e) (snd e))
           (fst (loop precision pair duration es ks)),
       snd (loop precision pair duration es ks)).
Proof.
  induction ks as [| [type timeDuration] rest IH]; intros duration es.
  - reflexivity.
  - cbn [loop].
    destruct (isLessThan (dividedBy duration timeDuration) (ofZ 1)).
    + apply IH.
    + set (floored := integerValue_FLOOR (dividedBy duration timeDuration)).
      set (duration' := minus duration (times floored timeDuration)).
      replace (map (fun e => push (fst e) (snd e)) es ++ [push floored type])
        with (map (fun e : entry => push (fst e) (snd e))
                  (es ++ [(floored, type)]))
        by (rewrite map_app; reflexivity).
      assert (Hen : enough precision
                      (map (fun e : entry => push (fst e) (snd e))
                           (es ++ [(floored, type)]))
                    = enough precision (es ++ [(floored, type)])).
      { unfold enough. destruct precision; [| reflexivity].
        rewrite length_map. reflexivity. }
      rewrite Hen.
      destruct (enough precision (es ++ [(floored, type)])).
      * reflexivity.
      * apply IH.
Qed.

(** The invariant of the loop on the units [ts], from any state. *)
Lemma loop_invariant (precision : option Z) (ts : list TimeType) :
  StronglySorted (larger Time) ts ->
  forall (duration : dec) (es : list entry),
  exists new : list entry,
    fst (loop precision pair duration es (map (fun t => (t, Time t)) ts))
    = es ++ new
    /\ Forall wholeCount new
    /\ StronglySorted (larger Time) (map snd new)
    /\ incl (map snd new) ts
    /\ toQ duration
       == entrySum Time new
          + toQ (snd (loop precision pair duration es
                        (map (fun t => (t, Time t)) ts))).
Proof.
  induction ts as [| t ts IH]; intros Hs duration es.
  - exists []. cbn [map loop fst snd entrySum fold_right].
    rewrite app_nil_r.
    repeat split; try constructor; try (intros x []).
    rewrite Qplus_0_l. reflexivity.
  - inversion Hs as [| ? ? Hs' Hall]; subst.
    cbn [map loop].
    destruct (isLessThan (dividedBy duration (Time t)) (ofZ 1)) eqn:Hlt.
    + destruct (IH Hs' duration es) as (new & E & Hc & Hso & Hin & Hsum).
      exists new. repeat split; auto.
      intros x Hx. right. apply Hin, Hx.
    + set (floored := integerValue_FLOOR (dividedBy duration (Time t))).
      set (duration' := minus duration (times floored (Time t))).
      assert (Hcount : wholeCount (floored, t)).
      { split; [reflexivity |]. apply floorZ_ge_1, Hlt. }
      assert (Hstep : toQ duration
                      == toQ floored * toQ (Time t) + toQ duration').
      { subst duration'. rewrite toQ_minus, toQ_times. ring. }
      destruct (enough precision (es ++ [(floored, t)])).
      * exists [(floored, t)]. cbn [fst snd map entrySum fold_right].
        repeat split; auto.
        -- repeat constructor.
        -- intros x [<- | []]. left; reflexivity.
        -- rewrite Hstep. ring.
      * destruct (IH Hs' duration' (es ++ [(floored, t)]))
          as (new & E & Hc & Hso & Hin & Hsum).
        exists ((floored, t) :: new). cbn [fst snd map entrySum fold_right].
        repeat split.
        -- rewrite E, <- app_assoc. reflexivity.
        -- constructor; assumption.
        -- constructor; [assumption |].
           rewrite Forall_forall in Hall |- *.
           intros x Hx. apply Hall, Hin, Hx.
        -- intros x [<- | Hx]; [left; reflexivity | right; apply Hin, Hx].
        -- fold (entrySum Time new). rewrite Hstep, Hsum. ring.
Qed.

Lemma descending_sorted :
  descending Time -> StronglySorted (larger Time) canonicalUnits.
Proof.
  intro Hd. unfold canonicalUnits.
  repeat (constructor; [| repeat (constructor;
            [apply Hd; cbn; lia |])]); try constructor.
Qed.

End LoopFacts.

(** ** The scanner: every matched number is a decimal literal *)
Section ScannerFacts.

Import Big Parser.

Local Open Scope N_scope.

Lemma span_spec (p : N -> bool) (l : text) :
  forall a b, span p l = (a, b) ->
    l = a ++ b /\ forallb p a = true /\ stops p b.
Proof.
  induction l as [| c r IH]; intros a b H; cbn in H.
  - inversion H; subst. repeat split.
  - destruct (p c) eqn:Hc.
    + destruct (span p r) as [a' b'] eqn:E. inversion H; subst.
      destruct (IH _ _ eq_refl) as (-> & Ha & Hb).
      repeat split; [cbn; rewrite Hc; exact Ha | exact Hb].
    + inversion H; subst. repeat split. exact Hc.
Qed.

Lemma span_app (p : N -> bool) (a b : text) :
  forallb p a = true -> stops p b -> span p (a ++ b) = (a, b).
Proof.
  induction a as [| x a IH]; cbn; intros Ha Hb.
  - destruct b as [| c b']; [reflexivity |]. cbn in Hb |- *. rewrite Hb.
    reflexivity.
  - apply andb_prop in Ha as [Hx Ha]. rewrite Hx, (IH Ha Hb). reflexivity.
Qed.

Ltac charcase :=
  unfold isDigit, between in *;
  repeat match goal with
         | |- context [N.eqb ?a ?b] => destruct (N.eqb_spec a b)
         | |- context [N.leb ?a ?b] => destruct (N.leb_spec a b)
         | H : context [N.eqb ?a ?b] |- _ => destruct (N.eqb_spec a b)
         | H : context [N.leb ?a ?b] |- _ => destruct (N.leb_spec a b)
         end;
  cbn in *; try reflexivity; try discriminate; try lia.

Lemma digit_not_minus (c : N) : isDigit c = true -> (c =? 45) = false.
Proof. intro H. charcase. Qed.

Lemma digit_not_sign (c : N) :
  isDigit c = true -> (c =? 45) || (c =? 43) = false.
Proof. intro H. charcase. Qed.

Lemma digit_not_point (c : N) : isDigit c = true -> (c =? 46) = false.
Proof. intro H. charcase. Qed.

Lemma e_not_digit (c : N) : (c =? 101) || (c =? 69) = true -> isDigit c = false.
Proof. intro H. charcase. Qed.

Lemma e_not_point (c : N) : (c =? 101) || (c =? 69) = true -> (c =? 46) = false.
Proof. intro H. charcase. Qed.

Lemma exponentLike_stops (ex : text) : exponentLike ex -> stops isDigit ex.
Proof. destruct ex as [| c r]; cbn; [trivial | apply e_not_digit]. Qed.

Lemma optionalSign_app (r sg r1 d : text) :
  optionalSign r = (sg, r1) -> forallb isDigit d = true -> nonEmpty d = true ->
  optionalSign (sg ++ d) = (sg, d).
Proof.
  intros H Hd Hne. destruct r as [| c r']; cbn in H.
  - inversion H; subst. destruct d as [| x d']; [discriminate |].
    cbn in Hd |- *. apply andb_prop in Hd as [Hx _].
    rewrite (digit_not_sign x Hx). reflexivity.
  - destruct ((c =? 45) || (c =? 43)) eqn:Hc; inversion H; subst.
    + cbn. rewrite Hc. reflexivity.
    + destruct d as [| x d']; [discriminate |].
      cbn in Hd |- *. apply andb_prop in Hd as [Hx _].
      rewrite (digit_not_sign x Hx). reflexivity.
Qed.

Lemma matchExponent_parses (l ex r : text) :
  matchExponent l = (ex, r) ->
  exponentLike ex /\ exists z, parseExponent ex = Some z.
Proof.
  intro H. destruct l as [| c r0]; cbn in H.
  - inversion H; subst. split; [exact I | exists 0%Z; reflexivity].
  - destruct ((c =? 101) || (c =? 69)) eqn:Hc.
    + destruct (optionalSign r0) as [sg r1] eqn:Es.
      destruct (span isDigit r1) as [d r2] eqn:Ed.
      destruct (nonEmpty d) eqn:Hne; inversion H; subst.
      * destruct (span_spec _ _ _ _ Ed) as (_ & Hd & _).
        split; [exact Hc |]. cbn [parseExponent]. rewrite Hc.
        rewrite (optionalSign_app _ _ _ _ Es Hd Hne).
        pose proof (span_app isDigit d [] Hd I) as Hsp.
        rewrite app_nil_r in Hsp. rewrite Hsp, Hne. cbn. eauto.
      * split; [exact I | exists 0%Z; reflexivity].
    + inversion H; subst. split; [exact I | exists 0%Z; reflexivity].
Qed.

Lemma matchDigits_numberLike (l num r : text) :
  matchDigits l = Some (num, r) -> numberLike num.
Proof.
  unfold matchDigits. destruct (span isDigit l) as [d1 l2] eqn:E1.
  destruct (span_spec _ _ _ _ E1) as (_ & Hd1 & _).
  assert (Hplain : (if nonEmpty d1 then Some (d1, l2) else None) = Some (num, r)
                   -> numberLike num).
  { destruct (nonEmpty d1) eqn:Hne; intro H; inversion H; subst.
    apply whole; assumption. }
  destruct l2 as [| c l3]; [exact Hplain |].
  destruct (c =? 46) eqn:Hc; [| exact Hplain].
  destruct (span isDigit l3) as [d2 l4] eqn:E2.
  destruct (span_spec _ _ _ _ E2) as (_ & Hd2 & _).
  destruct (nonEmpty d2) eqn:Hne; [| exact Hplain].
  intro H; inversion H; subst.
  apply N.eqb_eq in Hc; subst c. apply fractional; assumption.
Qed.

Lemma literal_number (sg num ex : text) :
  sg = [] \/ sg = [45] -> numberLike num -> exponentLike ex ->
  (exists z, parseExponent ex = Some z) ->
  exists d, literal (sg ++ num ++ ex) = Some d.
Proof.
  intros Hsg Hnum Hex [z Hz].
  assert (Hhead : optionalMinus (num ++ ex) = ([], num ++ ex)).
  { destruct Hnum as [d1 Hd1 Hne | d1 d2 Hd1 Hd2 Hne].
    - destruct d1 as [| x d1']; [discriminate |].
      cbn in Hd1 |- *. apply andb_prop in Hd1 as [Hx _].
      rewrite (digit_not_minus x Hx). reflexivity.
    - destruct d1 as [| x d1'].
      + reflexivity.
      + cbn in Hd1 |- *. apply andb_prop in Hd1 as [Hx _].
        rewrite (digit_not_minus x Hx). reflexivity. }
  assert (Hminus : optionalMinus (sg ++ num ++ ex) = (sg, num ++ ex)).
  { destruct Hsg as [-> | ->]; [exact Hhead | reflexivity]. }
  unfold literal. rewrite Hminus.
  destruct Hnum as [d1 Hd1 Hne | d1 d2 Hd1 Hd2 Hne].
  - rewrite (span_app isDigit d1 ex Hd1 (exponentLike_stops ex Hex)).
    assert (Hrest : match ex with
                    | [] => ([], ex)
                    | c :: r => if c =? 46 then span isDigit r else ([], ex)
                    end = (@nil N, ex)).
    { destruct ex as [| c r]; [reflexivity |].
      cbn in Hex. rewrite (e_not_point c Hex). reflexivity. }
    rewrite Hrest, Hne, Hz. cbn [orb]. eauto.
  - rewrite <- app_assoc. cbn [app].
    rewrite (span_app isDigit d1 (46 :: d2 ++ ex) Hd1 eq_refl).
    cbn [N.eqb Pos.eqb].
    rewrite (span_app isDigit d2 ex Hd2 (exponentLike_stops ex Hex)).
    rewrite Hne, Hz, orb_true_r. eauto.
Qed.

Lemma matchAt_number (l i un : text) (len : nat) :
  matchAt l = Some (i, un, len) -> exists d, literal i = Some d.
Proof.
  unfold matchAt. destruct (optionalMinus l) as [sg l1] eqn:Es.
  destruct (matchDigits l1) as [[num l2] |] eqn:Ed; [| discriminate].
  destruct (matchExponent l2) as [ex l3] eqn:Ee.
  destruct (span isSpace l3) as [ws l4].
  destruct (span isUnitChar l4) as [un' l5].
  intro H; inversion H; subst.
  destruct (matchExponent_parses _ _ _ Ee) as [Hex Hz].
  apply literal_number; auto.
  - destruct l as [| c r]; cbn in Es; [inversion Es; auto |].
    destruct (N.eqb_spec c 45); inversion Es; subst; auto.
  - eapply matchDigits_numberLike; eassumption.
Qed.

Lemma scan_number (l : text) :
  forall (skip : nat) (m : text * text),
    In m (scan skip l) -> exists d, literal (fst m) = Some d.
Proof.
  induction l as [| c r IH]; intros skip m Hin; cbn [scan] in Hin.
  - destruct Hin.
  - destruct skip as [| k]; [| eapply IH; eassumption].
    destruct (matchAt (c :: r)) as [[[i un] len] |] eqn:E.
    + destruct Hin as [<- | Hin]; [| eapply IH; eassumption].
      eapply matchAt_number; eassumption.
    + eapply IH; eassumption.
Qed.

End ScannerFacts.

(** ** The exponent range *)
Section RangeFacts.

Import Big.

Lemma normalise_inRange (a : dec) : inRange a = true -> normalise a = Fin a.
Proof.
  unfold inRange, normalise. destruct (isZero a); [reflexivity |].
  cbn [orb]. intro H. apply andb_prop in H as [Hlo Hhi].
  apply Z.leb_le in Hlo, Hhi.
  destruct (Z.ltb_spec MAX_EXP (exponent a)); [lia |].
  destruct (Z.ltb_spec (exponent a) MIN_EXP); [lia | reflexivity].
Qed.

(** Within the range, adding one token is the exact sum and product. *)
Lemma tokenWithin_exact (total n token : dec) :
  tokenWithin total n token = true ->
  Ranged.plus (Fin total) (Ranged.times (normalise n) (normalise token))
  = Fin (plus total (times n token)).
Proof.
  unfold tokenWithin. intro H.
  apply andb_prop in H as [H Hsum]. apply andb_prop in H as [H Hprod].
  apply andb_prop in H as [Hn Htoken].
  rewrite (normalise_inRange n Hn), (normalise_inRange token Htoken).
  cbn [Ranged.times]. rewrite (normalise_inRange _ Hprod).
  cbn [Ranged.plus]. apply normalise_inRange, Hsum.
Qed.

End RangeFacts.

(** ** The fold of [calculateOffset] *)
Section ParseFacts.

Import Big Parser.

Variable Time : TimeType -> dec.

Local Open Scope Q_scope.

Lemma callback_unresolved (state : Extended * bool) (m : text * text) :
  resolves Time m = false -> callback Time state m = state.
Proof.
  unfold resolves, callback. destruct m as [i un]; cbn [snd].
  destruct (Map_get (tokens Time) un); [discriminate | reflexivity].
Qed.


(** Without a match that resolves, the total and the mark stay as they
    were. *)
Lemma fold_callback_none (ms : list (text * text)) :
  existsb (resolves Time) ms = false ->
  forall state, fold_left (callback Time) ms state = state.
Proof.
  induction ms as [| m ms IH]; intros H state; [reflexivity |].
  cbn [existsb] in H. apply orb_false_elim in H as [Hm Hms].
  cbn [fold_left]. rewrite (callback_unresolved state m Hm). apply IH, Hms.
Qed.

(** Within the range, the fold from a finite total ends on a finite total:
    the start plus the sum over the resolved matches. *)
Lemma fold_callback (ms : list (text * text)) :
  forall (r0 : dec) (v0 : bool),
    withinRange Time r0 ms = true ->
    exists r : dec,
      fold_left (callback Time) ms (Within (Fin r0), v0)
      = (Within (Fin r), v0 || existsb (resolves Time) ms)%bool
      /\ toQ r == toQ r0 + tokenSum Time ms.
Proof.
  induction ms as [| m ms IH]; intros r0 v0 Hin.
  - exists r0. cbn. rewrite orb_false_r. split; [reflexivity | ring].
  - cbn [fold_left existsb]. cbn [withinRange] in Hin.
    change (tokenSum Time (m :: ms))
      with (match Map_get (tokens Time) (snd m) with
            | Some token => quantity (fst m) * toQ token + tokenSum Time ms
            | None => tokenSum Time ms
            end).
    unfold resolves at 1, callback at 2, quantity, newBigNumber.
    destruct m as [i un]; cbn [fst snd] in *.
    destruct (Map_get (tokens Time) un) as [token |].
    + destruct (literal i) as [n |]; [| discriminate Hin].
      apply andb_prop in Hin as [Hstep Hrest].
      rewrite (tokenWithin_exact r0 n token Hstep).
      destruct (IH (plus r0 (times n token)) true Hrest) as (r & E & Hsum).
      exists r. split.
      * rewrite E. cbn [orb]. rewrite orb_true_r. reflexivity.
      * rewrite Hsum, toQ_plus, toQ_times. ring.
    + destruct (IH r0 v0 Hin) as (r & E & Hsum).
      exists r. split; [rewrite E; reflexivity | exact Hsum].
Qed.

(** No match resolves: [calculateOffset] returns NaN. *)
Lemma calculateOffset_unresolved (pattern : text) :
  existsb (resolves Time) (matches pattern) = false ->
  calculateOffset Time pattern = NaN.
Proof.
  intro H. unfold calculateOffset.
  rewrite (fold_callback_none _ H). reflexivity.
Qed.

(** A match resolves and the parse stays within the range:
    [calculateOffset] returns the finite sum. *)
Lemma calculateOffset_within (pattern : text) :
  withinRange Time (ofZ 0) (matches pattern) = true ->
  existsb (resolves Time) (matches pattern) = true ->
  exists r, calculateOffset Time pattern = Fin r
            /\ toQ r == tokenSum Time (matches pattern).
Proof.
  intros Hin Hsome. unfold calculateOffset.
  destruct (fold_callback (matches pattern) (ofZ 0) false Hin)
    as (r & E & Hsum).
  rewrite E, Hsome. cbn [orb]. exists r. split; [reflexivity |].
  rewrite Hsum, toQ_ofZ. ring.
Qed.

(** [existsb] against the matches one by one. *)
Lemma none_resolves (ms : list (text * text)) :
  existsb (resolves Time) ms = false
  <-> forall m, In m ms -> resolves Time m = false.
Proof.
  split.
  - intros H m Hm. destruct (resolves Time m) eqn:Hr; [| reflexivity].
    assert (Hex : existsb (resolves Time) ms = true)
      by (apply existsb_exists; exists m; split; assumption).
    rewrite H in Hex. discriminate Hex.
  - intro Hall. destruct (existsb (resolves Time) ms) eqn:E; [| reflexivity].
    apply existsb_exists in E as (m & Hm & Hr).
    rewrite (Hall m Hm) in Hr. discriminate Hr.
Qed.

End ParseFacts.

(** ** The example tables *)

Lemma exampleTime_descending : descending exampleTime.
Proof.
  intros t1 t2 H.
  destruct t1, t2; cbn in H; try lia; vm_compute; reflexivity.
Qed.

(** ** The parser *)

(** C1. A parse that stays within the exponent range of the library and does
    not end on NaN ends on a finite magnitude, the sum, over the matches whose
    alias resolves in the unit table, of quantity times unit magnitude, in
    exact arithmetic; every matched number is a numeric string, whose value
    is that quantity. The text "2 days" parses to twice the magnitude of the
    day, which is 2 x 24 x 3600 x 1000 ticks under the spec's day. *)
Theorem parse_magnitude_is_token_sum (Time : TimeType -> Big.dec) :
  (forall pattern : Parser.text,
      withinRange Time (Big.ofZ 0)
        (Parser.matches (Parser.toLowerCase pattern)) = true ->
      Parser.Duration Time pattern <> Big.NaN ->
      exists r : Big.dec,
        Parser.Duration Time pattern = Big.Fin r
        /\ Big.toQ r
           == tokenSum Time (Parser.matches (Parser.toLowerCase pattern)))
  /\ (forall (pattern : Parser.text) (m : Parser.text * Parser.text),
        In m (Parser.matches (Parser.toLowerCase pattern)) ->
        exists n : Big.dec,
          Parser.literal (fst m) = Some n /\ quantity (fst m) = Big.toQ n)
  /\ (tokenWithin (Big.ofZ 0) (Big.ofZ 2) (Time Day) = true ->
      exists d : Big.dec,
        Parser.Duration Time (Parser.ofString "2 days") = Big.Fin d
        /\ Big.toQ d == 2 * Big.toQ (Time Day))
  /\ Parser.Duration exampleTime (Parser.ofString "2 days")
     = Big.Fin (Big.ofZ (2 * (24 * 3600 * 1000))).
Proof.
  split; [| split; [| split]].
  - intros pattern Hin Hnan. unfold Parser.Duration in *.
    destruct (existsb (resolves Time)
                (Parser.matches (Parser.toLowerCase pattern))) eqn:Hsome.
    + exact (calculateOffset_within Time _ Hin Hsome).
    + contradiction Hnan. apply calculateOffset_unresolved, Hsome.
  - intros pattern m Hm. unfold Parser.matches in Hm.
    destruct (scan_number _ _ m Hm) as [n Hn].
    exists n. split; [exact Hn |]. unfold quantity. rewrite Hn. reflexivity.
  - intro Hin.
    exists (Big.plus (Big.ofZ 0) (Big.times (Big.ofZ 2) (Time Day))). split.
    + exact (tokenWithin_exact (Big.ofZ 0) (Big.ofZ 2) (Time Day) Hin).
    + rewrite toQ_plus, toQ_times, !toQ_ofZ. ring.
  - reflexivity.
Qed.

Lemma parse_magnitude_is_token_sum_witness :
  Parser.Duration exampleTime (Parser.ofString "2 days")
  = Big.Fin (Big.ofZ 172800000)
  /\ exists r : Big.dec,
       Parser.Duration exampleTime (Parser.ofString "2 days") = Big.Fin r
       /\ Big.toQ r
          == tokenSum exampleTime
               (Parser.matches (Parser.toLowerCase (Parser.ofString "2 days"))).
Proof.
  split.
  - reflexivity.
  - apply (proj1 (parse_magnitude_is_token_sum exampleTime)).
    + reflexivity.
    + discriminate.
Defined.

(** C1 as stated, for every input text, fails. The number of "1e9999999999 s"
    is above the exponent range: the constructor makes it an infinity, the
    alias resolves, and the parse ends on plus infinity, which is neither NaN
    nor the finite sum. The number of "1e-9999999999 s" is below the range:
    the constructor makes it zero and the parse ends on zero, where the sum
    is positive. *)
Lemma parse_magnitude_as_stated_counterexample :
  let above := Parser.ofString "1e9999999999 s" in
  let below := Parser.ofString "1e-9999999999 s" in
  Parser.matches (Parser.toLowerCase above)
  = [(Parser.ofString "1e9999999999", Parser.ofString "s")]
  /\ resolves exampleTime (Parser.ofString "1e9999999999", Parser.ofString "s")
     = true
  /\ Parser.Duration exampleTime above = Big.Infinity false
  /\ Parser.Duration exampleTime above <> Big.NaN
  /\ (forall r : Big.dec, Parser.Duration exampleTime above <> Big.Fin r)
  /\ Parser.Duration exampleTime below = Big.Fin (Big.ofZ 0)
  /\ ~ Big.toQ (Big.ofZ 0)
       == tokenSum exampleTime (Parser.matches (Parser.toLowerCase below)).
Proof.
  intros above below.
  split; [vm_compute; reflexivity |].
  split; [vm_compute; reflexivity |].
  assert (E : Parser.Duration exampleTime above = Big.Infinity false)
    by (vm_compute; reflexivity).
  split; [exact E |]. rewrite E.
  split; [discriminate |]. split; [intro r; discriminate |].
  split; [vm_compute; reflexivity |].
  change (Parser.matches (Parser.toLowerCase below))
    with [(Parser.ofString "1e-9999999999", Parser.ofString "s")].
  unfold tokenSum; cbn [fold_right fst snd].
  change (Parser.Map_get (Parser.tokens exampleTime) (Parser.ofString "s"))
    with (Some (exampleTime Second)).
  change (quantity (Parser.ofString "1e-9999999999"))
    with (Big.toQ (Big.mkDec 1 (-9999999999))).
  rewrite toQ_ofZ. intro H.
  assert (Hq : (0 < Big.toQ (Big.mkDec 1 (-9999999999)))%Q).
  { unfold Big.toQ; cbn [Big.coef Big.expo].
    apply Qmult_lt_0_compat; [reflexivity |].
    apply Qpower_0_lt. reflexivity. }
  assert (Hs : (0 < Big.toQ (exampleTime Second))%Q) by reflexivity.
  pose proof (Qmult_lt_0_compat _ _ Hq Hs) as Hp.
  revert H Hp.
  generalize (Big.toQ (Big.mkDec 1 (-9999999999))
              * Big.toQ (exampleTime Second))%Q.
  intros q H Hp. rewrite Qplus_0_r in H. rewrite <- H in Hp.
  vm_compute in Hp. discriminate Hp.
Qed.




(** ** The formatter *)

(** C3. The loop over the units that [verbose], [elegant] (with a precision)
    and [compact] (without) run, from any finite magnitude [M], in particular
    a non-negative one: every emitted count is a whole number of at least 1;
    the emitted units decrease strictly in magnitude; the counts times their
    unit magnitudes, plus what the loop leaves of the duration, sum to [M];
    and whatever a mode pushes, its output array is the image of these
    entries. *)
Theorem decomposition_invariant (Time : TimeType -> Big.dec)
  (precision : option Z) (M : Big.dec) :
  descending Time ->
  let es := fst (Formatter.loop precision pair M []
                   (Formatter.kTimeDurations Time)) in
  let remainder := snd (Formatter.loop precision pair M []
                          (Formatter.kTimeDurations Time)) in
  Forall wholeCount es
  /\ StronglySorted (larger Time) (map snd es)
  /\ Big.toQ M == entrySum Time es + Big.toQ remainder
  /\ forall (A : Type) (push : Big.dec -> TimeType -> A),
       Formatter.loop precision push M [] (Formatter.kTimeDurations Time)
       = (map (fun e => push (fst e) (snd e)) es, remainder).
Proof.
  intros Hd es remainder.
  destruct (loop_invariant Time precision canonicalUnits
              (descending_sorted Time Hd) M [])
    as (new & E & Hc & Hs & _ & Hsum).
  change (map (fun t => (t, Time t)) canonicalUnits)
    with (Formatter.kTimeDurations Time) in E, Hsum.
  cbn [app] in E. fold es in E. fold remainder in Hsum. subst new.
  repeat split; try assumption.
  intros A push. apply (loop_map precision push _ M []).
Qed.

Lemma decomposition_invariant_witness :
  let es := fst (Formatter.loop (Some 7%Z) pair (Big.ofZ 3661000) []
                   (Formatter.kTimeDurations exampleTime)) in
  let remainder := snd (Formatter.loop (Some 7%Z) pair (Big.ofZ 3661000) []
                          (Formatter.kTimeDurations exampleTime)) in
  es = [(Big.ofZ 1, Hour); (Big.ofZ 1, Minute); (Big.ofZ 1, Second)]
  /\ Forall wholeCount es
  /\ StronglySorted (larger exampleTime) (map snd es)
  /\ Big.toQ (Big.ofZ 3661000) == entrySum exampleTime es + Big.toQ remainder.
Proof.
  intros es remainder. split.
  - reflexivity.
  - destruct (decomposition_invariant exampleTime (Some 7%Z)
                (Big.ofZ 3661000) exampleTime_descending)
      as (Hc & Hs & Hsum & _).
    repeat split; assumption.
Defined.

(** C4. Every rendering mode, given NaN, throws the error "Invalid duration"
    and returns nothing; a rendering is a value or an exception, never
    both. *)
Theorem rendering_NaN_is_invalid (Time : TimeType -> Big.dec)
  (units : TimeType -> UnitAsset) (precision : Z) (left right : string) :
  Formatter.verbose Time units Big.NaN precision left right
  = Throw (Error "Invalid duration")
  /\ Formatter.elegant Time units Big.NaN precision left right
     = Throw (Error "Invalid duration")
  /\ Formatter.compact Time units Big.NaN right
     = Throw (Error "Invalid duration")
  /\ Formatter.colon Time Big.NaN = Throw (Error "Invalid duration")
  /\ Formatter.scientific Big.NaN = Throw (Error "Invalid duration")
  /\ Formatter.binary Time Big.NaN = Throw (Error "Invalid duration")
  /\ Formatter.object Time Big.NaN = Throw (Error "Invalid duration").
Proof. repeat split. Qed.

(** A duration that is zero or negative is below every unit: the loop emits
    nothing. *)
Section NothingEmitted.

Import Big Formatter.

Lemma ratio_nonneg (dp : Z) (a b : dec) :
  0 <= fst (ratio dp a b) /\ 0 <= snd (ratio dp a b).
Proof.
  unfold ratio; cbn [fst snd].
  split; apply Z.mul_nonneg_nonneg; try apply Z.abs_nonneg;
    apply Z.lt_le_incl, pow10_pos; lia.
Qed.

Lemma dividedBy_nonpositive (a b : dec) :
  coef a = 0 \/ (coef a <= 0 /\ 0 <= coef b) -> coef (dividedBy a b) <= 0.
Proof.
  intro H. unfold dividedBy.
  destruct (ratio_nonneg DECIMAL_PLACES a b) as [Hn Hd].
  destruct (ratio DECIMAL_PLACES a b) as [n d]; cbn [fst snd coef] in *.
  assert (Hq : 0 <= (2 * n + d) / (2 * d)).
  { destruct (Z.eq_dec d 0) as [-> | Hd0].
    - rewrite Z.mul_0_r, Z.div_0_r. lia.
    - apply Z.div_pos; lia. }
  assert (Hs : sgn2 a b <= 0).
  { unfold sgn2. destruct H as [-> | [Ha Hb]]; [cbn; lia |].
    pose proof (Z.sgn_nonpos (coef a)) as [_ H1].
    pose proof (Z.sgn_nonneg (coef b)) as [_ H2].
    specialize (H1 Ha). specialize (H2 Hb). nia. }
  nia.
Qed.

Lemma nonpositive_below_one (d : dec) :
  coef d <= 0 -> isLessThan d (ofZ 1) = true.
Proof.
  intro H. unfold isLessThan, scaleTo, ofZ; cbn [coef expo].
  apply Z.ltb_lt.
  assert (0 < pow10 (0 - Z.min (expo d) 0)) by (apply pow10_pos; lia).
  assert (0 < pow10 (expo d - Z.min (expo d) 0)) by (apply pow10_pos; lia).
  nia.
Qed.

Lemma loop_nothing {A : Type} (precision : option Z)
  (push : dec -> TimeType -> A) (duration : dec) (output : list A)
  (ks : list (TimeType * dec)) :
  coef duration = 0 \/ (coef duration <= 0 /\ Forall (fun k => 0 <= coef (snd k)) ks) ->
  loop precision push duration output ks = (output, duration).
Proof.
  induction ks as [| [type timeDuration] rest IH]; intro H; [reflexivity |].
  cbn [loop]. rewrite nonpositive_below_one.
  - apply IH. destruct H as [H | [H1 H2]]; [left; exact H | right].
    split; [exact H1 | inversion H2; assumption].
  - apply dividedBy_nonpositive.
    destruct H as [H | [H1 H2]]; [left; exact H | right].
    split; [exact H1 | inversion H2; assumption].
Qed.

Lemma kTimeDurations_nonneg (Time : TimeType -> dec) :
  (forall t, 0 < coef (Time t)) ->
  Forall (fun k => 0 <= coef (snd k)) (kTimeDurations Time).
Proof.
  intro H. unfold kTimeDurations. apply Forall_forall.
  intros k Hk. apply in_map_iff in Hk as (t & <- & _). cbn.
  apply Z.lt_le_incl, H.
Qed.

End NothingEmitted.

(** C5. For a negative magnitude [elegant] renders the absolute value and puts
    a minus sign in front. [verbose] does not: it drops the absolute value it
    computes (line 59), emits nothing for the negative duration, and the
    fallback of line 81 throws a ReferenceError. *)
Theorem verbose_negative_throws (Time : TimeType -> Big.dec)
  (units : TimeType -> UnitAsset) (M : Big.dec) (precision : Z)
  (left right : string) :
  Big.coef M < 0 ->
  (forall t, 0 < Big.coef (Time t)) ->
  Formatter.verbose Time units (Big.Fin M) precision left right
  = Throw (ReferenceError "addUnit")
  /\ exists s : string,
       Formatter.elegant Time units (Big.Fin (Big.abs M)) precision left right
       = Return s
       /\ Formatter.elegant Time units (Big.Fin M) precision left right
          = Return ("-" ++ s)%string.
Proof.
  intros Hneg Hpos. split.
  - unfold Formatter.verbose.
    assert (Hn : Big.isNegative M = true) by (apply Z.ltb_lt; exact Hneg).
    rewrite Hn. unfold Formatter.discarding.
    rewrite loop_nothing.
    + reflexivity.
    + right. split; [lia | apply kTimeDurations_nonneg, Hpos].
  - unfold Formatter.elegant.
    assert (Hn : Big.isNegative M = true) by (apply Z.ltb_lt; exact Hneg).
    assert (Ha : Big.isNegative (Big.abs M) = false).
    { unfold Big.isNegative, Big.abs; cbn [Big.coef]. apply Z.ltb_ge. lia. }
    rewrite Hn, Ha. cbn [Str.signed]. eexists. split; reflexivity.
Qed.

Lemma verbose_negative_throws_witness :
  Formatter.verbose exampleTime exampleUnits (Big.Fin (Big.ofZ (-1000)))
    7 " " " "
  = Throw (ReferenceError "addUnit")
  /\ Formatter.verbose exampleTime exampleUnits (Big.Fin (Big.ofZ 1000))
       7 " " " "
     = Return "1 second"%string
  /\ Formatter.elegant exampleTime exampleUnits (Big.Fin (Big.ofZ (-1000)))
       7 " " " "
     = Return "-1 second"%string.
Proof.
  split; [| split].
  - apply (verbose_negative_throws exampleTime exampleUnits (Big.ofZ (-1000))).
    + reflexivity.
    + intro t; destruct t; reflexivity.
  - reflexivity.
  - reflexivity.
Defined.

(** C6. [verbose] of a zero magnitude emits nothing, and the fallback that
    would render the zero count (line 81) calls the unbound [addUnit]: the
    call throws a ReferenceError instead of returning a string. *)
Theorem verbose_zero_throws (Time : TimeType -> Big.dec)
  (units : TimeType -> UnitAsset) (e precision : Z) (left right : string) :
  Formatter.verbose Time units (Big.Fin (Big.mkDec 0 e)) precision left right
  = Throw (ReferenceError "addUnit").
Proof.
  unfold Formatter.verbose. cbn [Big.isNegative Big.coef Z.ltb Z.compare].
  rewrite loop_nothing; [reflexivity | left; reflexivity].
Qed.

(** C7. [compact] on 3,661,000 ticks (1h 1m 1s): [addUnit] ends every entry
    with the separator and the entries are then joined with the separator
    again, so two separators stand between entries and one trails the last
    entry. A zero magnitude renders as "0". *)
Theorem compact_doubles_separator (units : TimeType -> UnitAsset)
  (separator : string) :
  Formatter.compact exampleTime units (Big.Fin (Big.ofZ 3661000)) separator
  = Return (("1" ++ COMPACT (units Hour) ++ separator) ++ separator
            ++ ("1" ++ COMPACT (units Minute) ++ separator) ++ separator
            ++ "1" ++ COMPACT (units Second) ++ separator)%string
  /\ Formatter.compact exampleTime exampleUnits (Big.Fin (Big.ofZ 3661000)) " "
     = Return "1h  1m  1s "%string
  /\ Formatter.compact exampleTime units (Big.Fin (Big.ofZ 0)) separator
     = Return "0"%string.
Proof. repeat split. Qed.

(** ** [elegant] against [verbose] *)
Section ElegantFacts.

Import Big Formatter.

Local Open Scope string_scope.

Lemma isEmpty_append_l (a b : string) :
  isEmpty a = false -> isEmpty (a ++ b) = false.
Proof. destruct a; [discriminate | reflexivity]. Qed.

Lemma isEmpty_append_r (a b : string) :
  isEmpty b = false -> isEmpty (a ++ b) = false.
Proof. destruct a; [trivial | reflexivity]. Qed.

Lemma exponential_nonempty (str : string) (e : Z) :
  isEmpty (Str.exponential str e) = false.
Proof.
  unfold Str.exponential. apply isEmpty_append_r, isEmpty_append_l.
  destruct (e <? 0)%Z; reflexivity.
Qed.

Lemma fixedPoint_nonempty (str : string) (e : Z) :
  isEmpty (Str.fixedPoint str e) = false.
Proof.
  unfold Str.fixedPoint. destruct (Z.ltb_spec e 0) as [He | He].
  - reflexivity.
  - destruct (Z.ltb_spec (Z.of_nat (String.length str)) (e + 1)) as [Hl | Hl].
    + apply isEmpty_append_r.
      destruct (Z.to_nat (e + 1 - Z.of_nat (String.length str))) eqn:E;
        [lia | reflexivity].
    + destruct (Z.ltb_spec (e + 1) (Z.of_nat (String.length str))).
      * apply isEmpty_append_r, isEmpty_append_l. reflexivity.
      * destruct str; [cbn in Hl; lia | reflexivity].
Qed.

Lemma toString_nonempty (a : dec) : isEmpty (Str.toString a) = false.
Proof.
  unfold Str.toString. destruct (coef a =? 0)%Z; [reflexivity |].
  destruct (Str.normal a) as [str e].
  assert (H : isEmpty (if ((e <=? -7) || (21 <=? e))%Z
                       then Str.exponential str e
                       else Str.fixedPoint str e) = false)
    by (destruct ((e <=? -7) || (21 <=? e))%Z;
        [apply exponential_nonempty | apply fixedPoint_nonempty]).
  unfold Str.signed. destruct (isNegative a); [reflexivity | exact H].
Qed.

Lemma groupThousands_nonempty (s : string) :
  isEmpty s = false -> isEmpty (Str.groupThousands s) = false.
Proof.
  destruct s as [| c r]; [discriminate |]. intros _.
  unfold Str.groupThousands. cbn [Str.commas].
  apply isEmpty_append_r. reflexivity.
Qed.

Lemma addUnit_nonempty (time : dec) (unit : UnitAsset) (separator : string) :
  isEmpty (addUnit time unit separator false) = false.
Proof.
  unfold addUnit.
  destruct (Reflect_get (exact unit) (Str.toString time));
    apply isEmpty_append_l, groupThousands_nonempty, toString_nonempty.
Qed.

Lemma join_nonempty (separator x : string) (r : list string) :
  isEmpty x = false -> isEmpty (Str.join separator (x :: r)) = false.
Proof.
  intro H. destruct r; cbn [Str.join]; [exact H |].
  apply isEmpty_append_l, H.
Qed.

Variable Time : TimeType -> dec.
Variable units : TimeType -> UnitAsset.

Lemma emitted_nonempty (duration : dec) (precision : Z) (left : string) :
  Forall (fun s => isEmpty s = false) (emitted Time units duration precision left).
Proof.
  unfold emitted.
  pose proof (loop_map (Some precision)
                (fun floored type => addUnit floored (units type) left false)
                (kTimeDurations Time) duration []) as H.
  cbn [map] in H. rewrite H. cbn [fst]. apply Forall_forall. intros s Hs.
  apply in_map_iff in Hs as (e & <- & _). apply addUnit_nonempty.
Qed.

End ElegantFacts.

(** [elegant] and [verbose] on a non-negative magnitude, in terms of the
    output array. *)
Lemma elegant_nonnegative (Time : TimeType -> Big.dec)
  (units : TimeType -> UnitAsset) (M : Big.dec) (precision : Z)
  (left right : string) :
  Big.isNegative M = false ->
  Formatter.elegant Time units (Big.Fin M) precision left right
  = Return (Formatter.joinWithConjunction
              (emitted Time units M precision left) right).
Proof.
  intro Hn. unfold Formatter.elegant, emitted. rewrite Hn. reflexivity.
Qed.

Lemma verbose_nonnegative (Time : TimeType -> Big.dec)
  (units : TimeType -> UnitAsset) (M : Big.dec) (precision : Z)
  (left right : string) :
  Big.isNegative M = false ->
  Formatter.verbose Time units (Big.Fin M) precision left right
  = if Formatter.isEmpty (Str.join right (emitted Time units M precision left))
    then Throw (ReferenceError "addUnit")
    else Return (Str.join right (emitted Time units M precision left)).
Proof.
  intro Hn. unfold Formatter.verbose, emitted. rewrite Hn. reflexivity.
Qed.

(** The two joinings of an array of non-empty entries. *)
Lemma joining_cases (output : list string) (right : string) :
  Forall (fun s => Formatter.isEmpty s = false) output ->
  Formatter.joinWithConjunction output right
  = match output with
    | [] => ""
    | [e] => e
    | _ => Str.join ", " (removelast output) ++ " and "
           ++ last output "" ++ right
    end%string
  /\ (output <> [] -> Formatter.isEmpty (Str.join right output) = false).
Proof.
  intro Hall. split.
  - unfold Formatter.joinWithConjunction.
    destruct output as [| x [| y r]]; reflexivity.
  - intro Hne. destruct output as [| x r]; [contradiction Hne; reflexivity |].
    inversion Hall; subst. apply join_nonempty. assumption.
Qed.

(** Appending to a string changes it unless what is appended is empty. *)
Lemma append_cancel_l (a x y : string) :
  (a ++ x)%string = (a ++ y)%string -> x = y.
Proof.
  induction a as [| c a IH]; cbn [append]; intro H; [exact H |].
  injection H as H. apply IH, H.
Qed.

Lemma append_empty_r (a : string) : (a ++ "")%string = a.
Proof.
  induction a as [| c a IH]; cbn [append]; [reflexivity |].
  rewrite IH. reflexivity.
Qed.

(** C8. For a non-negative magnitude [elegant] builds the output array that
    [verbose] builds (same counts, labels and precision cap) and joins it
    with commas and the word and. With two entries or more it then puts the
    right separator after the last entry, where the specification, the
    descriptions of [elegant] and [joinWithConjunction] (a separator between
    units, between elements), the one-entry path and [verbose] have nothing:
    whenever the right separator is not empty the result is not the stated
    joining. An empty array gives the empty string; one entry alone is
    returned as it is, as [verbose] returns it. *)
Theorem elegant_joins_verbose_entries (Time : TimeType -> Big.dec)
  (units : TimeType -> UnitAsset) (M : Big.dec) (precision : Z)
  (left right : string) :
  Big.isNegative M = false ->
  let output := emitted Time units M precision left in
  Formatter.elegant Time units (Big.Fin M) precision left right
  = Return (match output with
            | [] => ""
            | [e] => e
            | _ => Str.join ", " (removelast output) ++ " and "
                   ++ last output "" ++ right
            end)%string
  /\ (output <> [] ->
      Formatter.verbose Time units (Big.Fin M) precision left right
      = Return (Str.join right output))
  /\ (forall e, output = [e] ->
        Formatter.verbose Time units (Big.Fin M) precision left right = Return e
        /\ Formatter.elegant Time units (Big.Fin M) precision left right
           = Return e)
  /\ (forall x y rest, output = x :: y :: rest -> right <> ""%string ->
        Formatter.elegant Time units (Big.Fin M) precision left right
        <> Return (conjunctionAsStated output)).
Proof.
  intros Hn output.
  destruct (joining_cases output right
              (emitted_nonempty Time units M precision left)) as [Hj Hne].
  rewrite (elegant_nonnegative Time units M precision left right Hn).
  rewrite (verbose_nonnegative Time units M precision left right Hn).
  fold output. clearbody output.
  split; [| split; [| split]].
  - rewrite Hj. reflexivity.
  - intro H. rewrite (Hne H). reflexivity.
  - intros e Ee. subst output. split.
    + rewrite Hne by discriminate. reflexivity.
    + reflexivity.
  - intros x y rest Eo Hr Heq. rewrite Hj in Heq. subst output.
    unfold conjunctionAsStated in Heq. cbv beta iota in Heq.
    remember (last (x :: y :: rest) ""%string) as l eqn:El.
    remember (Str.join ", " (removelast (x :: y :: rest))) as j eqn:Ej.
    injection Heq as Heq.
    apply append_cancel_l in Heq. apply (append_cancel_l " and ") in Heq.
    rewrite <- (append_empty_r l) in Heq at 2.
    apply append_cancel_l in Heq. exact (Hr Heq).
Qed.

Lemma elegant_joins_verbose_entries_witness :
  emitted exampleTime exampleUnits (Big.ofZ 3661000) 7 " "
  = ["1 hour"; "1 minute"; "1 second"]%string
  /\ Formatter.elegant exampleTime exampleUnits (Big.Fin (Big.ofZ 3661000))
       7 " " " "
     = Return "1 hour, 1 minute and 1 second "%string
  /\ conjunctionAsStated ["1 hour"; "1 minute"; "1 second"]%string
     = "1 hour, 1 minute and 1 second"%string
  /\ Formatter.elegant exampleTime exampleUnits (Big.Fin (Big.ofZ 3661000))
       7 " " " "
     <> Return (conjunctionAsStated
                  (emitted exampleTime exampleUnits (Big.ofZ 3661000) 7 " "))
  /\ Formatter.verbose exampleTime exampleUnits (Big.Fin (Big.ofZ 3661000))
       7 " " " "
     = Return "1 hour 1 minute 1 second"%string.
Proof.
  assert (E : emitted exampleTime exampleUnits (Big.ofZ 3661000) 7 " "
              = ["1 hour"; "1 minute"; "1 second"]%string)
    by (vm_compute; reflexivity).
  split; [exact E |].
  pose proof (elegant_joins_verbose_entries exampleTime exampleUnits
                (Big.ofZ 3661000) 7 " " " " eq_refl) as H.
  cbv zeta in H. destruct H as (He & Hv & _ & Hd).
  split; [rewrite He; vm_compute; reflexivity |].
  split; [vm_compute; reflexivity |].
  split.
  - apply (Hd _ _ _ E). discriminate.
  - rewrite Hv; [vm_compute; reflexivity | rewrite E; discriminate].
Defined.

(** ** Rounded quotients against exact remainders

    [dividedBy] rounds the quotient to 20 decimal places, half up, before
    [integerValue] floors it; [modulo] is exact. Just below a multiple of a
    unit the rounded quotient reaches the next whole number, the count is one
    too many, and the remainder does not follow. The magnitude below is
    3599999.99999999999999 ticks, 1e-14 ticks short of one hour; the parser
    yields it for the text "3599999.99999999999999 ms". *)

(** C9. [object] on that magnitude returns 16 keys, one per canonical unit in
    order, but counts one hour where the magnitude holds none: the counts
    times their unit magnitudes, plus the final remainder, do not sum to the
    magnitude. *)
Theorem object_sum_broken_by_rounding :
  let M := Big.mkDec 359999999999999999999 (-14) in
  let result := Formatter.cascade M [] (Formatter.kTimeDurations exampleTime) in
  Big.isNegative M = false
  /\ Parser.Duration exampleTime (Parser.ofString "3599999.99999999999999 ms")
     = Big.Fin M
  /\ Formatter.object exampleTime (Big.Fin M)
     = Return [(Terayear, 0); (Gigayear, 0); (Megayear, 0); (Millennium, 0);
               (Century, 0); (Decade, 0); (Year, 0); (Month, 0); (Week, 0);
               (Day, 0); (Hour, 1); (Minute, 59); (Second, 59);
               (Millisecond, 999); (Microsecond, 999); (Nanosecond, 999)]
  /\ Qfloor (Big.toQ M / Big.toQ (exampleTime Hour)) = 0
  /\ ~ Big.toQ M
       == objectSum exampleTime (fst result) + Big.toQ (snd result).
Proof.
  intros M result. repeat split.
  intro H. vm_compute in H. discriminate H.
Qed.

(** C10. [colon] renders 3,661,000 ticks as 01:01:01, with every field padded
    to two digits. On the magnitude just below one hour it renders the hours
    field as 01, where the floor of magnitude over hour magnitude is 0. *)
Theorem colon_hours_broken_by_rounding :
  let M := Big.mkDec 359999999999999999999 (-14) in
  Formatter.colon exampleTime (Big.Fin (Big.ofZ 3661000))
  = Return "01:01:01"%string
  /\ Big.isNegative M = false
  /\ Qfloor (Big.toQ M / Big.toQ (exampleTime Hour)) = 0
  /\ Formatter.colon exampleTime (Big.Fin M) = Return "01:59:59"%string.
Proof. repeat split. Qed.

(** ** What holds of [object] and [colon] on every magnitude *)

(** [object] returns one key per canonical unit, in order. *)
Lemma object_keys (Time : TimeType -> Big.dec) (M : Big.dec) :
  exists o : TimeObject,
    Formatter.object Time (Big.Fin M) = Return o
    /\ map fst o = canonicalUnits.
Proof. eexists. split; reflexivity. Qed.

(** A padded field has at least two characters and ends with the number. *)
Lemma padWithZero_width (num : Big.dec) :
  (2 <= String.length (Formatter.padWithZero num))%nat
  /\ exists zs, Formatter.padWithZero num = (zs ++ Str.toString num)%string.
Proof.
  unfold Formatter.padWithZero, Str.padStart2. split.
  - destruct (Str.toString num) as [| a [| b r]]; cbn; lia.
  - eexists. reflexivity.
Qed.

(** ** [colon] on whole numbers of ticks

    The floor of a rounded quotient is the floor of the quotient when the
    magnitude is a whole number of ticks and the unit is a whole number below
    2e20: rounding at the twentieth decimal place cannot reach the next whole
    number then. *)
Section WholeTicks.

Import Big Formatter.

Lemma round_then_floor (z h : Z) :
  0 <= z -> 0 < h -> h < 2 * 10 ^ 20 ->
  (2 * (z * 10 ^ 20) + h) / (2 * h) / 10 ^ 20 = z / h.
Proof.
  intros Hz Hh Hb.
  set (P := 10 ^ 20) in *.
  assert (HP : 0 < P) by (subst P; lia).
  pose proof (Z.div_mod z h ltac:(lia)) as Hdm.
  pose proof (Z.mod_pos_bound z h Hh) as Hr.
  set (q := z / h) in *. set (r := z mod h) in *.
  symmetry.
  apply Z.div_unique_pos with (r := (2 * (z * P) + h) / (2 * h) - q * P).
  - split.
    + assert (q * P <= (2 * (z * P) + h) / (2 * h))
        by (apply Z.div_le_lower_bound; nia).
      lia.
    + assert ((2 * (z * P) + h) / (2 * h) < (q + 1) * P)
        by (apply Z.div_lt_upper_bound; nia).
      lia.
  - lia.
Qed.

Lemma floor_dividedBy_whole (z h : Z) :
  0 <= z -> 0 < h -> h < 2 * 10 ^ 20 ->
  integerValue_FLOOR (dividedBy (ofZ z) (ofZ h)) = ofZ (z / h).
Proof.
  intros Hz Hh Hb.
  unfold integerValue_FLOOR, floorZ, dividedBy, ratio, sgn2, ofZ, DECIMAL_PLACES;
    cbn [coef expo]. f_equal.
  change (0 <=? - 20) with false. cbv beta iota.
  change (- - 20) with 20. change (Z.max (0 - 0 + 20) 0) with 20.
  change (Z.max (- (0 - 0 + 20)) 0) with 0.
  unfold pow10. change (10 ^ 0) with 1.
  rewrite (Z.abs_eq z) by lia. rewrite (Z.abs_eq h) by lia.
  rewrite (Z.sgn_pos h) by lia. rewrite !Z.mul_1_r.
  destruct (Z.eq_dec z 0) as [-> | Hz0].
  - cbn [Z.sgn]. rewrite Z.mul_0_l. reflexivity.
  - rewrite (Z.sgn_pos z) by lia. rewrite Z.mul_1_l.
    apply round_then_floor; assumption.
Qed.

Lemma modulo_whole (z h : Z) :
  0 <= z -> 0 < h -> modulo (ofZ z) (ofZ h) = ofZ (z mod h).
Proof.
  intros Hz Hh.
  unfold modulo, ratio, sgn2, minus, times, scaleTo, ofZ; cbn [coef expo].
  change (Z.max (0 - 0 + 0) 0) with 0. change (Z.max (- (0 - 0 + 0)) 0) with 0.
  change (Z.min 0 (0 + 0)) with 0. change (0 + 0 - 0) with 0.
  change (0 - 0) with 0. unfold pow10. change (10 ^ 0) with 1.
  f_equal.
  rewrite (Z.abs_eq z) by lia. rewrite (Z.abs_eq h) by lia.
  rewrite (Z.sgn_pos h) by lia. rewrite !Z.mul_1_r.
  rewrite (Z.mod_eq z h) by lia.
  destruct (Z.eq_dec z 0) as [-> | Hz0].
  - cbn [Z.sgn]. rewrite Z.div_0_l by lia. lia.
  - rewrite (Z.sgn_pos z) by lia. lia.
Qed.

(** On a whole, non-negative number of ticks the three fields of [colon] are
    the floors the specification names. *)
Lemma colon_whole_ticks (z : Z) :
  0 <= z ->
  colon exampleTime (Fin (ofZ z))
  = Return (padWithZero (ofZ (z / 3600000)) ++ ":"
            ++ padWithZero (ofZ (z mod 3600000 / 60000)) ++ ":"
            ++ padWithZero (ofZ (z mod 3600000 mod 60000 / 1000)))%string.
Proof.
  intro Hz. unfold colon.
  change (exampleTime Hour) with (ofZ 3600000).
  change (exampleTime Minute) with (ofZ 60000).
  change (exampleTime Second) with (ofZ 1000).
  assert (H1 : 0 <= z mod 3600000) by (apply Z.mod_pos_bound; lia).
  assert (H2 : 0 <= z mod 3600000 mod 60000) by (apply Z.mod_pos_bound; lia).
  rewrite (modulo_whole z 3600000) by lia.
  rewrite (modulo_whole (z mod 3600000) 60000) by lia.
  rewrite !floor_dividedBy_whole by lia.
  reflexivity.
Qed.

End WholeTicks.

(** * More of the code *)

(** ** The precision cap of [verbose] and [elegant] *)
Section PrecisionFacts.

Import Big Formatter.

(** The loop only appends to the output array. *)
Lemma loop_extends {A : Type} (precision : option Z)
  (push : dec -> TimeType -> A) (ks : list (TimeType * dec)) :
  forall (duration : dec) (output : list A),
  exists new, fst (loop precision push duration output ks) = output ++ new.
Proof.
  induction ks as [| [type timeDuration] rest IH]; intros duration output.
  - exists []. cbn. rewrite app_nil_r. reflexivity.
  - cbn [loop].
    destruct (isLessThan (dividedBy duration timeDuration) (ofZ 1)).
    + apply IH.
    + set (floored := integerValue_FLOOR (dividedBy duration timeDuration)).
      set (duration' := minus duration (times floored timeDuration)).
      destruct (enough precision (output ++ [push floored type])).
      * exists [push floored type]. reflexivity.
      * destruct (IH duration' (output ++ [push floored type])) as [new E].
        exists (push floored type :: new). rewrite E, <- app_assoc. reflexivity.
Qed.

(** With fewer entries than the cap, the capped loop returns the first
    entries of the loop without a cap. *)
Lemma loop_cap {A : Type} (precision : Z) (push : dec -> TimeType -> A)
  (ks : list (TimeType * dec)) :
  forall (duration : dec) (output : list A),
    (List.length output < Z.to_nat (Z.max 1 precision))%nat ->
    fst (loop (Some precision) push duration output ks)
    = firstn (Z.to_nat (Z.max 1 precision))
        (fst (loop None push duration output ks)).
Proof.
  induction ks as [| [type timeDuration] rest IH]; intros duration output Hlen.
  - cbn [loop fst]. symmetry. apply firstn_all2. lia.
  - cbn [loop].
    destruct (isLessThan (dividedBy duration timeDuration) (ofZ 1)).
    + apply IH, Hlen.
    + set (floored := integerValue_FLOOR (dividedBy duration timeDuration)).
      set (duration' := minus duration (times floored timeDuration)).
      set (output' := output ++ [push floored type]).
      assert (Hlen' : List.length output' = S (List.length output))
        by (subst output'; rewrite length_app; cbn; lia).
      change (enough None output') with false. cbv iota.
      unfold enough at 1.
      destruct (Z.leb_spec precision (Z.of_nat (List.length output')))
        as [Hle | Hgt].
      * destruct (loop_extends None push rest duration' output') as [new E].
        rewrite E. cbn [fst].
        replace (Z.to_nat (Z.max 1 precision)) with (List.length output' + 0)%nat
          by lia.
        rewrite firstn_app_2. cbn. rewrite app_nil_r. reflexivity.
      * apply IH. lia.
Qed.

End PrecisionFacts.

(** X1. The precision of [verbose] and [elegant] only truncates: the output
    array is made of the first entries of the decomposition without a cap,
    as many as the precision, and one when the precision is below 1. *)
Theorem precision_takes_first_entries (Time : TimeType -> Big.dec)
  (units : TimeType -> UnitAsset) (M : Big.dec) (precision : Z)
  (left : string) :
  emitted Time units M precision left
  = firstn (Z.to_nat (Z.max 1 precision))
      (fst (Formatter.loop None
              (fun floored type =>
                 Formatter.addUnit floored (units type) left false)
              M [] (Formatter.kTimeDurations Time)))
  /\ (List.length (emitted Time units M precision left)
      <= Z.to_nat (Z.max 1 precision))%nat.
Proof.
  assert (E : emitted Time units M precision left
              = firstn (Z.to_nat (Z.max 1 precision))
                  (fst (Formatter.loop None
                          (fun floored type =>
                             Formatter.addUnit floored (units type) left false)
                          M [] (Formatter.kTimeDurations Time)))).
  { unfold emitted. apply loop_cap. cbn. lia. }
  split; [exact E |]. rewrite E. apply firstn_le_length.
Qed.

(** X2. [compact] renders a negative magnitude from the decomposition of its
    absolute value: the entries are those of the absolute value with a minus
    sign in front, and when nothing is emitted both render as "0", without a
    sign. *)
Theorem compact_negative (Time : TimeType -> Big.dec)
  (units : TimeType -> UnitAsset) (M : Big.dec) (separator : string) :
  Big.coef M < 0 ->
  let output :=
    fst (Formatter.loop None
           (fun floored type =>
              Formatter.addUnit floored (units type) separator true)
           (Big.abs M) [] (Formatter.kTimeDurations Time)) in
  Formatter.compact Time units (Big.Fin (Big.abs M)) separator
  = Return (match output with
            | [] => "0"
            | _ => Str.join separator output
            end)%string
  /\ Formatter.compact Time units (Big.Fin M) separator
     = Return (match output with
               | [] => "0"
               | _ => "-" ++ Str.join separator output
               end)%string.
Proof.
  intro Hneg.
  assert (Hn : Big.isNegative M = true) by (apply Z.ltb_lt; exact Hneg).
  assert (Ha : Big.isNegative (Big.abs M) = false).
  { unfold Big.isNegative, Big.abs; cbn [Big.coef]. apply Z.ltb_ge. lia. }
  cbv zeta. unfold Formatter.compact. rewrite Hn, Ha.
  set (output := fst (Formatter.loop None _ (Big.abs M) []
                        (Formatter.kTimeDurations Time))).
  clearbody output. destruct output as [| x r]; split; reflexivity.
Qed.

Lemma compact_negative_witness :
  Formatter.compact exampleTime exampleUnits (Big.Fin (Big.ofZ (-61000))) " "
  = Return "-1m  1s "%string.
Proof.
  pose proof (compact_negative exampleTime exampleUnits (Big.ofZ (-61000)) " "
                eq_refl) as H.
  cbv zeta in H. destruct H as [_ H]. rewrite H. vm_compute. reflexivity.
Defined.

(** ** Quotients and remainders against the values they denote *)
Section QuotientFacts.

Import Big Formatter.

Local Open Scope Q_scope.

Lemma ten_power_pos (e : Z) : 0 < (10 # 1) ^ e.
Proof. apply Qpower_0_lt. reflexivity. Qed.

Lemma inject_Z_pos (z : Z) : (0 < z)%Z -> 0 < inject_Z z.
Proof. intro H. unfold Qlt; cbn. lia. Qed.

Lemma toQ_pos (d : dec) : (0 < coef d)%Z -> 0 < toQ d.
Proof.
  intro H. unfold toQ.
  apply Qmult_lt_0_compat; [apply inject_Z_pos, H | apply ten_power_pos].
Qed.

Lemma toQ_nonpos (d : dec) : (coef d <= 0)%Z -> toQ d <= 0.
Proof.
  intro H. unfold toQ.
  assert (H1 : inject_Z (coef d) <= 0) by (unfold Qle; cbn; lia).
  pose proof (ten_power_pos (expo d)) as H2. nra.
Qed.

Lemma toQ_nonneg (d : dec) : (0 <= coef d)%Z -> 0 <= toQ d.
Proof.
  intro H. unfold toQ.
  assert (H1 : 0 <= inject_Z (coef d)) by (unfold Qle; cbn; lia).
  pose proof (ten_power_pos (expo d)) as H2. nra.
Qed.

Lemma toQ_neg (d : dec) : (coef d < 0)%Z -> toQ d < 0.
Proof.
  intro H. unfold toQ.
  assert (H1 : inject_Z (coef d) < 0) by (unfold Qlt; cbn; lia).
  pose proof (ten_power_pos (expo d)) as H2. nra.
Qed.

(** The two integers of [ratio] are in the proportion of the values, scaled
    by 10^dp. *)
Lemma ratio_scale (dp : Z) (a b : dec) :
  (0 <= coef a)%Z -> (0 < coef b)%Z ->
  inject_Z (fst (ratio dp a b)) * toQ b
  == inject_Z (snd (ratio dp a b)) * toQ a * (10 # 1) ^ dp.
Proof.
  intros Ha Hb. unfold ratio, toQ; cbn [fst snd].
  rewrite (Z.abs_eq (coef a)) by lia. rewrite (Z.abs_eq (coef b)) by lia.
  set (k := (expo a - expo b + dp)%Z).
  unfold pow10. rewrite !inject_Z_mult, !Zpower_Qpower by lia.
  change (inject_Z 10) with (10 # 1).
  assert (Hp : (10 # 1) ^ Z.max k 0 * (10 # 1) ^ expo b
               == (10 # 1) ^ Z.max (- k) 0 * (10 # 1) ^ expo a * (10 # 1) ^ dp).
  { rewrite <- !Qpower_plus by exact ten_neq_0.
    replace (Z.max (- k) 0 + expo a + dp)%Z with (Z.max k 0 + expo b)%Z
      by (subst k; lia).
    reflexivity. }
  setoid_replace (inject_Z (coef a) * (10 # 1) ^ Z.max k 0
                  * (inject_Z (coef b) * (10 # 1) ^ expo b))
    with (inject_Z (coef a) * inject_Z (coef b)
          * ((10 # 1) ^ Z.max k 0 * (10 # 1) ^ expo b)) by ring.
  rewrite Hp. ring.
Qed.

Lemma ratio_den_pos (dp : Z) (a b : dec) :
  (0 < coef b)%Z -> (0 < snd (ratio dp a b))%Z.
Proof.
  intro Hb. unfold ratio; cbn [snd].
  apply Z.mul_pos_pos; [lia | apply pow10_pos; lia].
Qed.

(** A duration that is at least one unit gives a rounded quotient that is
    not below 1. *)
Lemma dividedBy_at_least_one (a b : dec) :
  (0 < coef b)%Z -> toQ b <= toQ a ->
  isLessThan (dividedBy a b) (ofZ 1) = false.
Proof.
  intros Hb Hle.
  assert (Ha : (0 < coef a)%Z).
  { destruct (Z.lt_ge_cases 0 (coef a)) as [H | H]; [exact H |].
    pose proof (toQ_nonpos a H). pose proof (toQ_pos b Hb). lra. }
  pose proof (ratio_scale DECIMAL_PLACES a b ltac:(lia) Hb) as Hs.
  pose proof (ratio_den_pos DECIMAL_PLACES a b Hb) as Hd.
  pose proof (ratio_nonneg DECIMAL_PLACES a b) as [Hn _].
  unfold dividedBy, sgn2.
  destruct (ratio DECIMAL_PLACES a b) as [n d]; cbn [fst snd] in *.
  rewrite (Z.sgn_pos (coef a)), (Z.sgn_pos (coef b)) by lia.
  assert (Hbig : (d * 10 ^ 20 <= n)%Z).
  { destruct (Z.le_gt_cases (d * 10 ^ 20) n) as [H | H]; [exact H | exfalso].
    assert (Hq : inject_Z n < inject_Z (d * 10 ^ 20))
      by (rewrite <- Zlt_Qlt; exact H).
    rewrite inject_Z_mult in Hq.
    change (inject_Z (10 ^ 20)) with ((10 # 1) ^ DECIMAL_PLACES) in Hq.
    pose proof (toQ_pos b Hb) as Hbp.
    pose proof (inject_Z_pos d Hd) as Hdp.
    pose proof (ten_power_pos DECIMAL_PLACES) as Hpp.
    set (P := (10 # 1) ^ DECIMAL_PLACES) in *.
    assert (inject_Z n * toQ b < inject_Z d * P * toQ b) by nra.
    assert (HDP : 0 < inject_Z d * P) by (apply Qmult_lt_0_compat; assumption).
    assert (inject_Z d * P * toQ b <= inject_Z d * P * toQ a)
      by (apply Qmult_le_l; assumption).
    lra. }
  unfold isLessThan, scaleTo, ofZ, DECIMAL_PLACES; cbn [coef expo].
  apply Z.ltb_ge. unfold pow10.
  replace (0 - Z.min (- (20)) 0)%Z with 20%Z by reflexivity.
  replace (- (20) - Z.min (- (20)) 0)%Z with 0%Z by reflexivity.
  change (10 ^ 0)%Z with 1%Z.
  assert ((10 ^ 20 <= (2 * n + d) / (2 * d))%Z)
    by (apply Z.div_le_lower_bound; lia).
  lia.
Qed.

(** The remainder of a non-negative value by a positive one is exact, not
    negative, and below the divisor. *)
Lemma modulo_bounds (a b : dec) :
  (0 <= coef a)%Z -> (0 < coef b)%Z ->
  0 <= toQ (modulo a b) /\ toQ (modulo a b) < toQ b.
Proof.
  intros Ha Hb.
  pose proof (ratio_scale 0 a b Ha Hb) as Hs.
  pose proof (ratio_den_pos 0 a b Hb) as Hd.
  pose proof (ratio_nonneg 0 a b) as [Hn _].
  unfold modulo, sgn2.
  destruct (ratio 0 a b) as [n d]; cbn [fst snd] in *.
  rewrite toQ_minus, toQ_times, toQ_ofZ.
  assert (Hq : (Z.sgn (coef a) * Z.sgn (coef b) * (n / d) = n / d)%Z).
  { rewrite (Z.sgn_pos (coef b)) by lia.
    destruct (Z.eq_dec (coef a) 0) as [E | E].
    - assert (n = 0%Z) as ->.
      { assert (H0 : toQ a == 0) by (unfold toQ; rewrite E; ring).
        assert (Hz : inject_Z n * toQ b == 0) by (rewrite Hs, H0; ring).
        pose proof (toQ_pos b Hb) as Hbp.
        destruct (Z.eq_dec n 0) as [-> | Hn0]; [reflexivity | exfalso].
        pose proof (inject_Z_pos n ltac:(lia)). nra. }
      rewrite Z.div_0_l by lia. lia.
    - rewrite (Z.sgn_pos (coef a)) by lia. lia. }
  rewrite Hq.
  pose proof (Z.mul_div_le n d Hd) as Hlo.
  pose proof (Z.mul_succ_div_gt n d Hd) as Hhi.
  assert (Hlo' : inject_Z d * inject_Z (n / d) <= inject_Z n)
    by (rewrite <- inject_Z_mult, <- Zle_Qle; exact Hlo).
  assert (Hhi' : inject_Z n < inject_Z d * (inject_Z (n / d) + 1)).
  { change 1 with (inject_Z 1). rewrite <- inject_Z_plus, <- inject_Z_mult.
    rewrite <- Zlt_Qlt. unfold Z.succ in Hhi. exact Hhi. }
  change ((10 # 1) ^ 0) with 1 in Hs.
  pose proof (toQ_pos b Hb) as Hbp.
  pose proof (inject_Z_pos d Hd) as Hdp.
  set (q := inject_Z (n / d)) in *. set (N := inject_Z n) in *.
  set (D := inject_Z d) in *. set (ta := toQ a) in *. set (tb := toQ b) in *.
  assert (H1 : D * q * tb <= N * tb) by nra.
  assert (H2 : N * tb < D * (q + 1) * tb) by nra.
  assert (H3 : N * tb == D * ta) by (rewrite Hs; ring).
  split.
  - assert (D * (q * tb) <= D * ta) by nra. nra.
  - assert (D * ta < D * ((q + 1) * tb)) by nra. nra.
Qed.

End QuotientFacts.

(** ** When the loop emits, and what [object] leaves *)
Section EmitFacts.

Import Big Formatter.

Lemma loop_emits {A : Type} (precision : option Z)
  (push : dec -> TimeType -> A) (ks : list (TimeType * dec))
  (duration : dec) (t : TimeType) (k : dec) :
  In (t, k) ks ->
  isLessThan (dividedBy duration k) (ofZ 1) = false ->
  fst (loop precision push duration [] ks) <> [].
Proof.
  induction ks as [| [type timeDuration] rest IH]; intros Hin Hge.
  - destruct Hin.
  - cbn [loop].
    destruct (isLessThan (dividedBy duration timeDuration) (ofZ 1)) eqn:E.
    + destruct Hin as [Heq | Hin]; [| apply IH; assumption].
      injection Heq as -> ->. rewrite Hge in E. discriminate E.
    + set (x := push (integerValue_FLOOR (dividedBy duration timeDuration)) type).
      set (duration' := minus duration _).
      destruct (enough precision ([] ++ [x])); [discriminate |].
      destruct (loop_extends precision push rest duration' ([] ++ [x]))
        as [new ->].
      discriminate.
Qed.

Lemma in_kTimeDurations (Time : TimeType -> dec) (t : TimeType) :
  In (t, Time t) (kTimeDurations Time).
Proof.
  unfold kTimeDurations.
  apply (in_map (fun u => (u, Time u))).
  destruct t; cbn; auto 20.
Qed.

Lemma cascade_snoc (ks : list (TimeType * dec)) (t : TimeType) (k : dec) :
  forall (duration : dec) (result : TimeObject),
    snd (cascade duration result (ks ++ [(t, k)]))
    = modulo (snd (cascade duration result ks)) k.
Proof.
  induction ks as [| [type timeDuration] rest IH]; intros duration result.
  - reflexivity.
  - cbn [app cascade]. apply IH.
Qed.

Lemma modulo_coef_nonneg (a b : dec) :
  0 <= coef a -> 0 < coef b -> 0 <= coef (modulo a b).
Proof.
  intros Ha Hb.
  destruct (modulo_bounds a b Ha Hb) as [Hlo _].
  destruct (Z.lt_ge_cases (coef (modulo a b)) 0) as [H | H]; [| exact H].
  pose proof (toQ_neg _ H). lra.
Qed.

Lemma floor_dividedBy_nonneg (a b : dec) :
  0 <= coef a -> 0 < coef b -> 0 <= floorZ (dividedBy a b).
Proof.
  intros Ha Hb.
  destruct (ratio_nonneg DECIMAL_PLACES a b) as [Hn Hd].
  pose proof (ratio_den_pos DECIMAL_PLACES a b Hb) as Hdp.
  unfold floorZ, dividedBy, sgn2.
  destruct (ratio DECIMAL_PLACES a b) as [n d]; cbn [fst snd coef expo] in *.
  replace (0 <=? - DECIMAL_PLACES) with false by reflexivity.
  apply Z.div_pos; [| apply pow10_pos; unfold DECIMAL_PLACES; lia].
  assert (0 <= (2 * n + d) / (2 * d)) by (apply Z.div_pos; lia).
  pose proof (Z.sgn_nonneg (coef a)) as [_ H1].
  pose proof (Z.sgn_nonneg (coef b)) as [_ H2].
  specialize (H1 Ha). specialize (H2 ltac:(lia)). nia.
Qed.

Lemma objSet_nonneg (o : TimeObject) (k : TimeType) (v : Z) :
  Forall (fun kv => 0 <= snd kv) o -> 0 <= v ->
  Forall (fun kv => 0 <= snd kv) (objSet o k v).
Proof.
  intros Ho Hv. induction o as [| [k' v'] r IH]; cbn [objSet].
  - constructor; [exact Hv | constructor].
  - inversion Ho; subst. destruct (TimeType_eqb k' k).
    + constructor; assumption.
    + constructor; [assumption | apply IH; assumption].
Qed.

Lemma cascade_nonneg (ks : list (TimeType * dec)) :
  Forall (fun k => 0 < coef (snd k)) ks ->
  forall (duration : dec) (result : TimeObject),
    0 <= coef duration -> Forall (fun kv => 0 <= snd kv) result ->
    0 <= coef (snd (cascade duration result ks))
    /\ Forall (fun kv => 0 <= snd kv) (fst (cascade duration result ks)).
Proof.
  induction ks as [| [type timeDuration] rest IH];
    intros Hks duration result Hd Hr.
  - split; assumption.
  - inversion Hks; subst. cbn [snd] in *. cbn [cascade]. apply IH.
    + assumption.
    + apply modulo_coef_nonneg; assumption.
    + apply objSet_nonneg; [assumption |].
      apply floor_dividedBy_nonneg; assumption.
Qed.

End EmitFacts.

(** X3. [verbose] returns a string for every magnitude that is at least one
    of the units, whatever the precision and the separators: something is
    emitted, so the broken fallback of line 81 is not reached, and the result
    is the output array joined with the right separator. *)
Theorem verbose_returns_from_one_unit (Time : TimeType -> Big.dec)
  (units : TimeType -> UnitAsset) (M : Big.dec) (precision : Z)
  (left right : string) (t : TimeType) :
  0 < Big.coef (Time t) ->
  (Big.toQ (Time t) <= Big.toQ M)%Q ->
  emitted Time units M precision left <> []
  /\ Formatter.verbose Time units (Big.Fin M) precision left right
     = Return (Str.join right (emitted Time units M precision left)).
Proof.
  intros Ht Hle.
  assert (HM : 0 < Big.coef M).
  { destruct (Z.lt_ge_cases 0 (Big.coef M)) as [H | H]; [exact H |].
    pose proof (toQ_nonpos M H). pose proof (toQ_pos (Time t) Ht). lra. }
  assert (Hn : Big.isNegative M = false)
    by (unfold Big.isNegative; apply Z.ltb_ge; lia).
  assert (Hne : emitted Time units M precision left <> []).
  { unfold emitted. apply (loop_emits _ _ _ M t (Time t)).
    - apply in_kTimeDurations.
    - apply dividedBy_at_least_one; assumption. }
  split; [exact Hne |].
  rewrite (verbose_nonnegative Time units M precision left right Hn).
  destruct (joining_cases (emitted Time units M precision left) right
              (emitted_nonempty Time units M precision left)) as [_ Hj].
  rewrite (Hj Hne). reflexivity.
Qed.

Lemma verbose_returns_from_one_unit_witness :
  Formatter.verbose exampleTime exampleUnits (Big.Fin (Big.mkDec 15 (-7)))
    7 " " " "
  = Return "1 nanosecond"%string.
Proof.
  destruct (verbose_returns_from_one_unit exampleTime exampleUnits
              (Big.mkDec 15 (-7)) 7 " " " " Nanosecond) as [_ H].
  - reflexivity.
  - vm_compute. discriminate.
  - rewrite H. vm_compute. reflexivity.
Defined.

(** X4. On a non-negative magnitude, with positive unit magnitudes, every
    count [object] stores is non-negative, and what it leaves out after the
    last unit is not negative and below one nanosecond. *)
Theorem object_counts_and_remainder (Time : TimeType -> Big.dec)
  (M : Big.dec) :
  (forall t, 0 < Big.coef (Time t)) ->
  0 <= Big.coef M ->
  let result := Formatter.cascade M [] (Formatter.kTimeDurations Time) in
  Formatter.object Time (Big.Fin M) = Return (fst result)
  /\ Forall (fun kv => 0 <= snd kv) (fst result)
  /\ (0 <= Big.toQ (snd result))%Q
  /\ (Big.toQ (snd result) < Big.toQ (Time Nanosecond))%Q.
Proof.
  intros Hpos HM result.
  assert (Hks : Forall (fun k => 0 < Big.coef (snd k))
                  (Formatter.kTimeDurations Time)).
  { apply Forall_forall. intros k Hk. unfold Formatter.kTimeDurations in Hk.
    apply in_map_iff in Hk as (t & <- & _). apply Hpos. }
  split; [reflexivity |].
  split; [apply cascade_nonneg; [exact Hks | exact HM | constructor] |].
  set (front := map (fun t => (t, Time t))
                  [Terayear; Gigayear; Megayear; Millennium; Century; Decade;
                   Year; Month; Week; Day; Hour; Minute; Second; Millisecond;
                   Microsecond]).
  assert (E : Formatter.kTimeDurations Time
              = front ++ [(Nanosecond, Time Nanosecond)]) by reflexivity.
  assert (Hfront : Forall (fun k => 0 < Big.coef (snd k)) front).
  { rewrite E in Hks. apply Forall_app in Hks. apply Hks. }
  subst result. rewrite E, cascade_snoc.
  apply modulo_bounds; [| apply Hpos].
  apply cascade_nonneg; [exact Hfront | exact HM | constructor].
Qed.

Lemma object_counts_and_remainder_witness :
  Formatter.object exampleTime (Big.Fin (Big.mkDec 36610000000015 (-7)))
  = Return [(Terayear, 0); (Gigayear, 0); (Megayear, 0); (Millennium, 0);
            (Century, 0); (Decade, 0); (Year, 0); (Month, 0); (Week, 0);
            (Day, 0); (Hour, 1); (Minute, 1); (Second, 1); (Millisecond, 0);
            (Microsecond, 0); (Nanosecond, 1)]
  /\ (Big.toQ (snd (Formatter.cascade (Big.mkDec 36610000000015 (-7)) []
                      (Formatter.kTimeDurations exampleTime)))
      < Big.toQ (exampleTime Nanosecond))%Q.
Proof.
  pose proof (object_counts_and_remainder exampleTime
                (Big.mkDec 36610000000015 (-7))) as H.
  cbv zeta in H. destruct H as (Ho & _ & _ & Hr).
  - intro t; destruct t; reflexivity.
  - vm_compute. discriminate.
  - split; [rewrite Ho; vm_compute; reflexivity | exact Hr].
Defined.

(** ** [colon] and [binary] on whole numbers of ticks *)
Section BinaryFacts.

Local Open Scope string_scope.

Lemma bitsValue_append (a b : string) :
  forall acc,
    bitsValue acc (a ++ b)
    = match bitsValue acc a with
      | Some v => bitsValue v b
      | None => None
      end.
Proof.
  induction a as [| c r IH]; intro acc; [reflexivity |].
  cbn [append bitsValue].
  destruct (Ascii.eqb c "0"); [apply IH |].
  destruct (Ascii.eqb c "1"); [apply IH | reflexivity].
Qed.

Lemma bitsValue_bitsP (p : positive) :
  forall acc,
    bitsValue acc (Str.bitsP p)
    = Some (acc * 2 ^ Z.of_nat (Pos.size_nat p) + Z.pos p).
Proof.
  induction p as [q IH | q IH |]; intro acc; cbn [Str.bitsP Pos.size_nat].
  - rewrite bitsValue_append, IH. cbn [bitsValue Ascii.eqb Bool.eqb].
    f_equal. rewrite Nat2Z.inj_succ, Z.pow_succ_r, Pos2Z.inj_xI by lia.
    generalize (2 ^ Z.of_nat (Pos.size_nat q)). intro X. lia.
  - rewrite bitsValue_append, IH. cbn [bitsValue Ascii.eqb Bool.eqb].
    f_equal. rewrite Nat2Z.inj_succ, Z.pow_succ_r, Pos2Z.inj_xO by lia.
    generalize (2 ^ Z.of_nat (Pos.size_nat q)). intro X. lia.
  - cbn [bitsValue Ascii.eqb Bool.eqb]. change (2 ^ Z.of_nat 1) with 2.
    f_equal. lia.
Qed.

Lemma bitsP_head (p : positive) :
  exists r, Str.bitsP p = String "1" r.
Proof.
  induction p as [q [r E] | q [r E] |]; cbn [Str.bitsP].
  - rewrite E. eexists. reflexivity.
  - rewrite E. eexists. reflexivity.
  - eexists. reflexivity.
Qed.

(** The base-2 numeral [toString(2)] prints denotes the integer printed. *)
Lemma binaryValue_toString2 (z : Z) : binaryValue (Str.toString2 z) = Some z.
Proof.
  destruct z as [| p | p]; cbn [Str.toString2].
  - reflexivity.
  - destruct (bitsP_head p) as [r E]. unfold binaryValue. rewrite E.
    cbn [Ascii.eqb Bool.eqb]. rewrite <- E, bitsValue_bitsP. f_equal.
  - unfold binaryValue. cbn [append Ascii.eqb Bool.eqb].
    destruct (bitsP_head p) as [r E]. rewrite E, <- E.
    rewrite bitsValue_bitsP. reflexivity.
Qed.

End BinaryFacts.

(** X5. On a whole, non-negative number of ticks, when the hour, the minute
    and the second are whole numbers of ticks below 2e20, the three fields of
    [colon] are the floors of the plain divisions: hours = z / hour,
    minutes = (z mod hour) / minute, seconds = (z mod hour mod minute) /
    second, each padded to two characters. *)
Theorem colon_on_whole_ticks (Time : TimeType -> Big.dec) (h m s z : Z) :
  Time Hour = Big.ofZ h -> Time Minute = Big.ofZ m ->
  Time Second = Big.ofZ s ->
  0 < h < 2 * 10 ^ 20 -> 0 < m < 2 * 10 ^ 20 -> 0 < s < 2 * 10 ^ 20 ->
  0 <= z ->
  Formatter.colon Time (Big.Fin (Big.ofZ z))
  = Return (Formatter.padWithZero (Big.ofZ (z / h)) ++ ":"
            ++ Formatter.padWithZero (Big.ofZ (z mod h / m)) ++ ":"
            ++ Formatter.padWithZero (Big.ofZ (z mod h mod m / s)))%string.
Proof.
  intros Eh Em Es Hh Hm Hs Hz. unfold Formatter.colon.
  rewrite Eh, Em, Es.
  assert (H1 : 0 <= z mod h) by (apply Z.mod_pos_bound; lia).
  assert (H2 : 0 <= z mod h mod m) by (apply Z.mod_pos_bound; lia).
  rewrite (modulo_whole z h) by lia.
  rewrite (modulo_whole (z mod h) m) by lia.
  rewrite !floor_dividedBy_whole by lia.
  reflexivity.
Qed.

Lemma colon_on_whole_ticks_witness :
  Formatter.colon exampleTime (Big.Fin (Big.ofZ 360061001))
  = Return "100:01:01"%string.
Proof.
  rewrite (colon_on_whole_ticks exampleTime 3600000 60000 1000 360061001);
    try reflexivity; try lia.
Defined.

(** X6. [binary] of a whole, non-negative number of ticks is the base-2
    numeral of the whole seconds in it: what is left of a second is
    discarded. The unit of the second is a whole number of ticks below
    2e20. *)
Theorem binary_on_whole_ticks (Time : TimeType -> Big.dec) (s z : Z) :
  Time Second = Big.ofZ s ->
  0 < s < 2 * 10 ^ 20 ->
  0 <= z ->
  Formatter.binary Time (Big.Fin (Big.ofZ z)) = Return (Str.toString2 (z / s))
  /\ binaryValue (Str.toString2 (z / s)) = Some (z / s).
Proof.
  intros Es Hs Hz. split.
  - unfold Formatter.binary. rewrite Es.
    rewrite floor_dividedBy_whole by lia. reflexivity.
  - apply binaryValue_toString2.
Qed.

Lemma binary_on_whole_ticks_witness :
  Formatter.binary exampleTime (Big.Fin (Big.ofZ 5999)) = Return "101"%string
  /\ binaryValue "101" = Some 5.
Proof.
  destruct (binary_on_whole_ticks exampleTime 1000 5999) as [Hb Hv];
    try reflexivity; try lia.
  split; [rewrite Hb; reflexivity | exact Hv].
Defined.

(** ** The thousands separators of [addUnit] *)
Section ThousandsFacts.

Local Open Scope string_scope.

Lemma isDigit_isWord (c : ascii) : Str.isDigit c = true -> Str.isWord c = true.
Proof.
  unfold Str.isDigit, Str.isWord. cbv zeta. intro H. rewrite H. reflexivity.
Qed.

Lemma isDigit_not_comma (c : ascii) :
  Str.isDigit c = true -> Ascii.eqb c "," = false.
Proof.
  intro H. destruct (Ascii.eqb_spec c ","); [subst; discriminate H | reflexivity].
Qed.

Lemma digitRun_allDigits (s : string) :
  allDigits s = true -> Str.digitRun s = String.length s.
Proof.
  induction s as [| c r IH]; [reflexivity |]. cbn [allDigits Str.digitRun length].
  intro H. apply andb_prop in H as [Hc Hr]. rewrite Hc, (IH Hr). reflexivity.
Qed.

Lemma third_step (m : nat) :
  (S m / 3 = (if (S m mod 3 =? 0) then 1 else 0) + m / 3)%nat.
Proof.
  pose proof (Nat.div_mod_eq (S m) 3) as H1.
  pose proof (Nat.div_mod_eq m 3) as H2.
  pose proof (Nat.mod_upper_bound (S m) 3 ltac:(lia)) as H3.
  pose proof (Nat.mod_upper_bound m 3 ltac:(lia)) as H4.
  destruct (Nat.eqb_spec (S m mod 3) 0); lia.
Qed.

Lemma commas_digits (s : string) :
  allDigits s = true ->
  forall prevWord,
    withoutCommas (Str.commas prevWord s) = s
    /\ countCommas (Str.commas true s) = (String.length s / 3)%nat.
Proof.
  induction s as [| c r IH]; intros Hs prevWord; [split; reflexivity |].
  pose proof (digitRun_allDigits _ Hs) as Hrun.
  cbn [allDigits] in Hs. apply andb_prop in Hs as [Hc Hr].
  pose proof (isDigit_not_comma c Hc) as Hcomma.
  pose proof (isDigit_isWord c Hc) as Hword.
  cbn [Str.commas]. cbv zeta. rewrite Hrun, Hword. cbn [length].
  destruct (IH Hr true) as [Hw Hn].
  split.
  - destruct (prevWord && negb (S (length r) =? 0)%nat
              && (S (length r) mod 3 =? 0)%nat);
      cbn [append withoutCommas Ascii.eqb Bool.eqb]; rewrite Hcomma, Hw;
      reflexivity.
  - cbn [andb negb Nat.eqb]. rewrite (third_step (length r)).
    destruct (S (length r) mod 3 =? 0)%nat;
      cbn [append countCommas Ascii.eqb Bool.eqb]; rewrite Hcomma, Hn;
      reflexivity.
Qed.

End ThousandsFacts.

(** X7. The number formatting of [addUnit] on a string of digits only adds
    commas: without them the digits are back, and there is one comma for
    every full group of three digits after the first digit. *)
Theorem groupThousands_digits (s : string) :
  allDigits s = true ->
  withoutCommas (Str.groupThousands s) = s
  /\ countCommas (Str.groupThousands s) = ((String.length s - 1) / 3)%nat.
Proof.
  intro Hs. unfold Str.groupThousands.
  split; [apply (commas_digits s Hs false) |].
  destruct s as [| c r]; [reflexivity |].
  cbn [allDigits] in Hs. apply andb_prop in Hs as [Hc Hr].
  cbn [Str.commas]. cbv zeta. cbn [andb append countCommas].
  rewrite (isDigit_not_comma c Hc), (isDigit_isWord c Hc).
  destruct (commas_digits r Hr true) as [_ Hn]. rewrite Hn.
  cbn [length]. replace (S (length r) - 1)%nat with (length r) by lia.
  reflexivity.
Qed.

Lemma groupThousands_digits_witness :
  Str.groupThousands "1234567" = "1,234,567"%string
  /\ withoutCommas "1,234,567" = "1234567"%string
  /\ countCommas "1,234,567" = 2%nat.
Proof.
  destruct (groupThousands_digits "1234567" eq_refl) as [Hw Hn].
  split; [reflexivity |]. split; [exact Hw | exact Hn].
Defined.

(** ** The alias table and the texts the parser ignores *)
Section TextFacts.

Import Big Parser.

Local Open Scope N_scope.

Ltac codecase :=
  unfold isUnitChar, isDigit, isWord, between in *;
  repeat match goal with
         | |- context [N.eqb ?a ?b] => destruct (N.eqb_spec a b)
         | |- context [N.leb ?a ?b] => destruct (N.leb_spec a b)
         | H : context [N.eqb ?a ?b] |- _ => destruct (N.eqb_spec a b)
         | H : context [N.leb ?a ?b] |- _ => destruct (N.leb_spec a b)
         end;
  cbn in *; try reflexivity; try discriminate; try lia.

Lemma toLowerCase_cons (c : N) (s : text) :
  toLowerCase (c :: s) = lowerCase c ++ toLowerCase s.
Proof. reflexivity. Qed.

Lemma toLowerCase_app (a b : text) :
  toLowerCase (a ++ b) = toLowerCase a ++ toLowerCase b.
Proof. apply flat_map_app. Qed.

Lemma lowerCase_lowerCase (c : N) : toLowerCase (lowerCase c) = lowerCase c.
Proof.
  unfold toLowerCase. unfold lowerCase at 2 3.
  codecase; unfold lowerCase; codecase.
Qed.

Lemma lowerCase_upper (c : N) :
  lowerCase (if between 97 122 c then c - 32 else c) = lowerCase c.
Proof.
  unfold between at 1.
  destruct (N.leb_spec 97 c); [destruct (N.leb_spec c 122) |]; cbn [andb];
    unfold lowerCase; codecase.
  all: try (f_equal; lia).
Qed.

Lemma lowerCase_commas (c : N) :
  removeCommas (lowerCase c) = if c =? 44 then [] else lowerCase c.
Proof. unfold removeCommas, lowerCase. codecase; codecase. Qed.

Lemma removeCommas_app (a b : text) :
  removeCommas (a ++ b) = removeCommas a ++ removeCommas b.
Proof. apply filter_app. Qed.

Lemma toLowerCase_idempotent (s : text) :
  toLowerCase (toLowerCase s) = toLowerCase s.
Proof.
  induction s as [| c r IH]; [reflexivity |].
  rewrite toLowerCase_cons, toLowerCase_app, lowerCase_lowerCase, IH.
  reflexivity.
Qed.

Lemma toLowerCase_upperCase (s : text) :
  toLowerCase (upperCase s) = toLowerCase s.
Proof.
  induction s as [| c r IH]; [reflexivity |].
  cbn [upperCase map]. rewrite !toLowerCase_cons, lowerCase_upper.
  f_equal. exact IH.
Qed.

Lemma removeCommas_toLowerCase (s : text) :
  removeCommas (toLowerCase s) = toLowerCase (removeCommas s).
Proof.
  induction s as [| c r IH]; [reflexivity |].
  rewrite toLowerCase_cons, removeCommas_app, lowerCase_commas, IH.
  unfold removeCommas at 2. cbn [filter].
  destruct (c =? 44); reflexivity.
Qed.

Lemma removeCommas_idempotent (s : text) :
  removeCommas (removeCommas s) = removeCommas s.
Proof.
  unfold removeCommas. induction s as [| c r IH]; [reflexivity |].
  cbn [filter]. destruct (negb (c =? 44)) eqn:E; [| exact IH].
  cbn [filter]. rewrite E, IH. reflexivity.
Qed.

End TextFacts.

(** X8. The alias table is consistent: every alias it lists resolves to the
    magnitude of the unit it is listed under, so no alias is claimed by two
    units. *)
Theorem aliases_resolve_to_their_unit (Time : TimeType -> Big.dec) :
  Forall (fun kv => Parser.Map_get (Parser.tokens Time) (fst kv) = Some (snd kv))
         (Parser.tokens Time).
Proof.
  unfold Parser.tokens at 2, Parser.aliases. cbn [map app].
  repeat (constructor; [reflexivity |]). constructor.
Qed.

(** X9. The parser does not see the case of ASCII letters: a text, the text
    in capitals and the text in small letters give the same magnitude. *)
Theorem parse_ignores_case (Time : TimeType -> Big.dec)
  (pattern : Parser.text) :
  Parser.Duration Time (upperCase pattern) = Parser.Duration Time pattern
  /\ Parser.Duration Time (Parser.toLowerCase pattern)
     = Parser.Duration Time pattern.
Proof.
  unfold Parser.Duration.
  rewrite toLowerCase_upperCase, toLowerCase_idempotent. split; reflexivity.
Qed.

(** X10. The parser drops every comma before it looks for numbers: a text and
    the text without its commas give the same magnitude. *)
Theorem parse_ignores_commas (Time : TimeType -> Big.dec)
  (pattern : Parser.text) :
  Parser.Duration Time (Parser.removeCommas pattern)
  = Parser.Duration Time pattern.
Proof.
  unfold Parser.Duration, Parser.calculateOffset, Parser.matches.
  rewrite removeCommas_toLowerCase, removeCommas_idempotent.
  rewrite <- removeCommas_toLowerCase. reflexivity.
Qed.

(** ** Texts without letters *)
Section NoLetterFacts.

Import Big Parser.

Local Open Scope N_scope.

Ltac unitcase :=
  unfold lowerCase, lettersIK, isIK, isUnitChar, between in *;
  repeat match goal with
         | |- context [N.eqb ?a ?b] => destruct (N.eqb_spec a b)
         | |- context [N.leb ?a ?b] => destruct (N.leb_spec a b)
         | H : context [N.eqb ?a ?b] |- _ => destruct (N.eqb_spec a b)
         | H : context [N.leb ?a ?b] |- _ => destruct (N.leb_spec a b)
         end;
  cbn in *; try reflexivity; try discriminate; try lia.

Lemma lettersIK_app (a b : text) :
  lettersIK (a ++ b) = lettersIK a && lettersIK b.
Proof. apply forallb_app. Qed.

Lemma lettersIK_tail (c : N) (l : text) :
  lettersIK (c :: l) = true -> lettersIK l = true.
Proof. cbn. intro H. apply andb_prop in H as [_ H]. exact H. Qed.

Lemma lettersIK_span (p : N -> bool) (l a b : text) :
  span p l = (a, b) -> lettersIK l = true -> lettersIK b = true.
Proof.
  intros E H. destruct (span_spec p l a b E) as (-> & _ & _).
  rewrite lettersIK_app in H. apply andb_prop in H as [_ H]. exact H.
Qed.

(** Lowering a code unit that is no letter gives no letter but i or k. *)
Lemma lowerCase_lettersIK (c : N) :
  isUnitChar c = false -> lettersIK (lowerCase c) = true.
Proof. intro H. unitcase; unitcase. Qed.

Lemma noLetters_lettersIK (s : text) :
  noLetters s = true -> lettersIK (toLowerCase s) = true.
Proof.
  induction s as [| c r IH]; [reflexivity |].
  unfold noLetters. cbn [forallb]. intro H. apply andb_prop in H as [Hc Hr].
  rewrite toLowerCase_cons, lettersIK_app.
  apply negb_true_iff in Hc.
  rewrite (lowerCase_lettersIK c Hc). apply IH, Hr.
Qed.

Lemma lettersIK_removeCommas (s : text) :
  lettersIK s = true -> lettersIK (removeCommas s) = true.
Proof.
  unfold lettersIK, removeCommas. intro H.
  apply forallb_forall. intros c Hc. apply filter_In in Hc as [Hc _].
  rewrite forallb_forall in H. apply H, Hc.
Qed.

Lemma lettersIK_not_a (c : N) (l : text) :
  lettersIK (c :: l) = true -> (c =? 97) || (c =? 65) = false.
Proof.
  cbn [lettersIK forallb]. intro H. apply andb_prop in H as [Hc _].
  unitcase.
Qed.

Lemma replaceAAn_lettersIK (l : text) :
  lettersIK l = true -> forall prevWord, replaceAAn prevWord 0 l = l.
Proof.
  induction l as [| c r IH]; intros H prevWord; [reflexivity |].
  cbn [replaceAAn]. rewrite (lettersIK_not_a c r H), andb_false_r.
  rewrite (IH (lettersIK_tail _ _ H)). reflexivity.
Qed.

Lemma lettersIK_optionalMinus (l sg l1 : text) :
  optionalMinus l = (sg, l1) -> lettersIK l = true -> lettersIK l1 = true.
Proof.
  destruct l as [| c r]; cbn [optionalMinus]; intros E H.
  - inversion E; subst; exact H.
  - destruct (c =? 45); inversion E; subst;
      [eapply lettersIK_tail; eassumption | exact H].
Qed.

Lemma lettersIK_optionalSign (l sg l1 : text) :
  optionalSign l = (sg, l1) -> lettersIK l = true -> lettersIK l1 = true.
Proof.
  destruct l as [| c r]; cbn [optionalSign]; intros E H.
  - inversion E; subst; exact H.
  - destruct ((c =? 45) || (c =? 43)); inversion E; subst;
      [eapply lettersIK_tail; eassumption | exact H].
Qed.

Lemma lettersIK_matchDigits (l num r : text) :
  matchDigits l = Some (num, r) -> lettersIK l = true -> lettersIK r = true.
Proof.
  unfold matchDigits. destruct (span isDigit l) as [d1 l2] eqn:E1.
  intros E H. pose proof (lettersIK_span _ _ _ _ E1 H) as H2.
  assert (Hplain : (if nonEmpty d1 then Some (d1, l2) else None) = Some (num, r)
                   -> lettersIK r = true).
  { destruct (nonEmpty d1); intro Ep; inversion Ep; subst; exact H2. }
  destruct l2 as [| c l3]; [exact (Hplain E) |].
  destruct (c =? 46); [| exact (Hplain E)].
  destruct (span isDigit l3) as [d2 l4] eqn:E2.
  destruct (nonEmpty d2); [| exact (Hplain E)].
  inversion E; subst.
  eapply lettersIK_span; [exact E2 |]. eapply lettersIK_tail; exact H2.
Qed.

Lemma lettersIK_matchExponent (l ex r : text) :
  matchExponent l = (ex, r) -> lettersIK l = true -> lettersIK r = true.
Proof.
  destruct l as [| c r0]; cbn [matchExponent]; intros E H.
  - inversion E; subst; exact H.
  - destruct ((c =? 101) || (c =? 69)); [| inversion E; subst; exact H].
    destruct (optionalSign r0) as [sg r1] eqn:Es.
    destruct (span isDigit r1) as [d r2] eqn:Ed.
    destruct (nonEmpty d); inversion E; subst; [| exact H].
    eapply lettersIK_span; [exact Ed |].
    eapply lettersIK_optionalSign; [exact Es |].
    eapply lettersIK_tail; exact H.
Qed.

(** The unit letters of a text whose only letters are i and k are i and k. *)
Lemma unit_letters_IK (un rest : text) :
  forallb isUnitChar un = true -> lettersIK (un ++ rest) = true ->
  forallb isIK un = true.
Proof.
  induction un as [| c u IH]; [reflexivity |].
  cbn [forallb app lettersIK]. intros Hun H.
  apply andb_prop in Hun as [Hc Hu]. apply andb_prop in H as [Hk Hr].
  rewrite Hc in Hk. cbn [negb orb] in Hk. rewrite Hk. apply (IH Hu Hr).
Qed.

Lemma matchAt_lettersIK (l i un : text) (len : nat) :
  matchAt l = Some (i, un, len) -> lettersIK l = true ->
  forallb isIK un = true.
Proof.
  unfold matchAt. destruct (optionalMinus l) as [sg l1] eqn:Es.
  destruct (matchDigits l1) as [[num l2] |] eqn:Ed; [| discriminate].
  destruct (matchExponent l2) as [ex l3] eqn:Ee.
  destruct (span isSpace l3) as [ws l4] eqn:Ew.
  destruct (span isUnitChar l4) as [un' l5] eqn:Eu.
  intros E H. inversion E; subst.
  assert (H4 : lettersIK l4 = true).
  { eapply lettersIK_span; [exact Ew |].
    eapply lettersIK_matchExponent; [exact Ee |].
    eapply lettersIK_matchDigits; [exact Ed |].
    eapply lettersIK_optionalMinus; [exact Es | exact H]. }
  destruct (span_spec _ _ _ _ Eu) as (-> & Hun & _).
  exact (unit_letters_IK un l5 Hun H4).
Qed.

Lemma scan_lettersIK (l : text) :
  lettersIK l = true ->
  forall (skip : nat) (m : text * text),
    In m (scan skip l) -> forallb isIK (snd m) = true.
Proof.
  induction l as [| c r IH]; intros H skip m Hin; cbn [scan] in Hin.
  - destruct Hin.
  - pose proof (lettersIK_tail _ _ H) as Hr.
    destruct skip as [| k]; [| eapply IH; eassumption].
    destruct (matchAt (c :: r)) as [[[i un] len] |] eqn:E.
    + destruct Hin as [<- | Hin]; [| eapply IH; eassumption].
      cbn [snd]. eapply matchAt_lettersIK; eassumption.
    + eapply IH; eassumption.
Qed.

Lemma textEqb_eq (a : text) : forall b, textEqb a b = true -> a = b.
Proof.
  induction a as [| x a IH]; intros [| y b] H; cbn in H;
    try reflexivity; try discriminate.
  apply andb_prop in H as [Hx Hr]. apply N.eqb_eq in Hx. subst y.
  f_equal. apply IH, Hr.
Qed.

Lemma Map_get_In {V : Type} (entries : list (text * V)) (key : text) (v : V) :
  Map_get entries key = Some v -> In (key, v) entries.
Proof.
  unfold Map_get.
  assert (H : forall found,
             fold_left (fun found kv =>
                          if textEqb (fst kv) key then Some (snd kv) else found)
                       entries found = Some v ->
             found = Some v \/ In (key, v) entries).
  { induction entries as [| [k w] r IH]; intros found E; cbn [fold_left] in E.
    - left. exact E.
    - cbn [fst snd] in E. destruct (IH _ E) as [Hf | Hin].
      + destruct (textEqb k key) eqn:Ek.
        * right. left. apply textEqb_eq in Ek. congruence.
        * left. exact Hf.
      + right. right. exact Hin. }
  intro E. destruct (H None E) as [Hf | Hin]; [discriminate Hf | exact Hin].
Qed.

(** Every alias of the table holds a letter other than i and k. *)
Lemma alias_letters (Time : TimeType -> dec) :
  Forall (fun kv => forallb isIK (fst kv) = false) (tokens Time).
Proof.
  unfold tokens, aliases. cbn [map app].
  repeat (constructor; [reflexivity |]). constructor.
Qed.

Lemma lettersIK_unresolved (Time : TimeType -> dec) (m : text * text) :
  forallb isIK (snd m) = true -> resolves Time m = false.
Proof.
  intro H. unfold resolves.
  destruct (Map_get (tokens Time) (snd m)) as [v |] eqn:E; [| reflexivity].
  apply Map_get_In in E.
  pose proof (alias_letters Time) as Hall. rewrite Forall_forall in Hall.
  specialize (Hall _ E). cbn [fst] in Hall. rewrite H in Hall.
  discriminate Hall.
Qed.

End NoLetterFacts.

(** X11. A text without letters never parses: whatever numbers it holds, no
    match has an alias, and the magnitude is NaN. *)
Theorem parse_without_letters_is_NaN (Time : TimeType -> Big.dec)
  (pattern : Parser.text) :
  noLetters pattern = true -> Parser.Duration Time pattern = Big.NaN.
Proof.
  intro H. unfold Parser.Duration.
  apply calculateOffset_unresolved, none_resolves.
  intros m Hm. apply lettersIK_unresolved.
  pose proof (lettersIK_removeCommas _ (noLetters_lettersIK _ H)) as Hk.
  unfold Parser.matches in Hm.
  rewrite (replaceAAn_lettersIK _ Hk) in Hm.
  exact (scan_lettersIK _ Hk 0%nat m Hm).
Qed.

Lemma parse_without_letters_is_NaN_witness :
  Parser.Duration exampleTime (Parser.ofString "1,000 + 2.5 - 7") = Big.NaN.
Proof.
  apply (parse_without_letters_is_NaN exampleTime). reflexivity.
Defined.

(** X12. When no match of the pattern has an alias that resolves, every
    rendering method of the [Duration] built from it throws the error
    "Invalid duration", whatever its arguments. *)
Theorem failed_parse_never_renders (Time : TimeType -> Big.dec)
  (units : TimeType -> UnitAsset) (pattern : Parser.text)
  (precision : option Z) (separators : option DurationClass.Separators)
  (options : option (option string)) :
  (forall m, In m (Parser.matches (Parser.toLowerCase pattern)) ->
             resolves Time m = false) ->
  let this := DurationClass.new Time pattern in
  DurationClass.verbose Time units this precision separators
  = Some (Throw (Error "Invalid duration"))
  /\ DurationClass.elegant Time units this precision separators
     = Some (Throw (Error "Invalid duration"))
  /\ DurationClass.compact Time units this options
     = Some (Throw (Error "Invalid duration"))
  /\ DurationClass.colon Time this = Some (Throw (Error "Invalid duration"))
  /\ DurationClass.scientific this = Some (Throw (Error "Invalid duration"))
  /\ DurationClass.binary Time this = Some (Throw (Error "Invalid duration"))
  /\ DurationClass.object Time this = Some (Throw (Error "Invalid duration")).
Proof.
  intros Hall this.
  assert (E : DurationClass.ms this = Big.NaN).
  { subst this. unfold DurationClass.new, Parser.Duration. cbn [DurationClass.ms].
    apply calculateOffset_unresolved, none_resolves, Hall. }
  clearbody this. destruct this as [ms]. cbn [DurationClass.ms] in E. subst ms.
  unfold DurationClass.verbose, DurationClass.elegant.
  destruct (DurationClass.separatorsOf separators) as [l r].
  repeat split.
Qed.

Lemma failed_parse_never_renders_witness :
  Parser.matches (Parser.toLowerCase (Parser.ofString "5 bananas"))
  = [(Parser.ofString "5", Parser.ofString "bananas")]
  /\ DurationClass.colon exampleTime
       (DurationClass.new exampleTime (Parser.ofString "5 bananas"))
     = Some (Throw (Error "Invalid duration")).
Proof.
  split; [vm_compute; reflexivity |].
  pose proof (failed_parse_never_renders exampleTime exampleUnits
                (Parser.ofString "5 bananas") None None None) as H.
  cbv zeta in H. apply H.
  intros m Hm. vm_compute in Hm. destruct Hm as [<- | []]. reflexivity.
Defined.

(** X13. A zero magnitude in the other modes, for every unit table: [elegant]
    returns the empty string, [compact] returns "0", [colon] returns
    00:00:00, [binary] returns "0", [scientific] returns "0e+0" and [object]
    holds a zero under each of the 16 units. ([verbose] throws, see C6.) *)
Theorem zero_magnitude_renderings (Time : TimeType -> Big.dec)
  (units : TimeType -> UnitAsset) (e precision : Z)
  (left right separator : string) :
  let zero := Big.Fin (Big.mkDec 0 e) in
  Formatter.elegant Time units zero precision left right = Return ""%string
  /\ Formatter.compact Time units zero separator = Return "0"%string
  /\ Formatter.colon Time zero = Return "00:00:00"%string
  /\ Formatter.binary Time zero = Return "0"%string
  /\ Formatter.scientific zero = Return "0e+0"%string
  /\ Formatter.object Time zero
     = Return (map (fun t => (t, 0)) canonicalUnits).
Proof. cbv zeta. repeat split. Qed.

(** ** A whole number, a space and an alias *)
Section NumberAliasFacts.

Import Big Parser.

Local Open Scope N_scope.

(** What the scanner needs of an alias, checked on every entry of the
    table. *)
Lemma alias_shape (Time : TimeType -> dec) :
  Forall (fun kv =>
            toLowerCase (32 :: fst kv) = 32 :: fst kv
            /\ removeCommas (32 :: fst kv) = 32 :: fst kv
            /\ replaceAAn true 0 (32 :: fst kv) = 32 :: fst kv
            /\ span isSpace (32 :: fst kv) = ([32], fst kv)
            /\ span isUnitChar (fst kv) = (fst kv, [])
            /\ Map_get (tokens Time) (fst kv) = Some (snd kv))
         (tokens Time).
Proof.
  unfold tokens at 2, aliases. cbn [map app].
  repeat (constructor; [repeat split; reflexivity |]). constructor.
Qed.

Lemma digit_lowerCase (c : N) : isDigit c = true -> lowerCase c = [c].
Proof.
  intro H. unfold lowerCase, isDigit, between in *.
  repeat match goal with
         | |- context [N.eqb ?a ?b] => destruct (N.eqb_spec a b)
         | |- context [N.leb ?a ?b] => destruct (N.leb_spec a b)
         | H : context [N.leb ?a ?b] |- _ => destruct (N.leb_spec a b)
         end; cbn in *; try reflexivity; try discriminate; try lia.
Qed.

Lemma digit_not_comma (c : N) : isDigit c = true -> (c =? 44) = false.
Proof.
  intro H. unfold isDigit, between in H.
  destruct (N.eqb_spec c 44) as [-> | _]; [discriminate H | reflexivity].
Qed.

Lemma digit_not_a (c : N) : isDigit c = true -> (c =? 97) || (c =? 65) = false.
Proof.
  intro H. unfold isDigit, between in H.
  destruct (N.eqb_spec c 97) as [-> | _]; [discriminate H |].
  destruct (N.eqb_spec c 65) as [-> | _]; [discriminate H | reflexivity].
Qed.

Lemma digit_isWord (c : N) : isDigit c = true -> isWord c = true.
Proof. intro H. unfold isWord. rewrite H. reflexivity. Qed.

Lemma digits_toLowerCase (d rest : text) :
  forallb isDigit d = true ->
  toLowerCase (d ++ rest) = d ++ toLowerCase rest.
Proof.
  induction d as [| c r IH]; [reflexivity |]. cbn [forallb app].
  intro H. apply andb_prop in H as [Hc Hr].
  rewrite toLowerCase_cons, (digit_lowerCase c Hc), (IH Hr). reflexivity.
Qed.

Lemma digits_removeCommas (d rest : text) :
  forallb isDigit d = true ->
  removeCommas (d ++ rest) = d ++ removeCommas rest.
Proof.
  unfold removeCommas.
  induction d as [| c r IH]; [reflexivity |]. cbn [forallb app filter].
  intro H. apply andb_prop in H as [Hc Hr].
  rewrite (digit_not_comma c Hc), (IH Hr). reflexivity.
Qed.

Lemma digits_replaceAAn (d rest : text) :
  forallb isDigit d = true ->
  forall prevWord,
    replaceAAn prevWord 0 (d ++ rest)
    = d ++ replaceAAn (match d with [] => prevWord | _ => true end) 0 rest.
Proof.
  induction d as [| c r IH]; intros H prevWord; [reflexivity |].
  cbn [forallb] in H. apply andb_prop in H as [Hc Hr].
  cbn [app replaceAAn].
  rewrite (digit_not_a c Hc), andb_false_r, (digit_isWord c Hc), (IH Hr).
  destruct r; reflexivity.
Qed.

Lemma scan_skips (l : text) :
  forall skip, (List.length l <= skip)%nat -> scan skip l = [].
Proof.
  induction l as [| c r IH]; intros skip H; [reflexivity |].
  cbn [List.length] in H. destruct skip as [| k]; [lia |].
  cbn [scan]. apply IH. lia.
Qed.

Lemma newBigNumber_digits (d : text) :
  forallb isDigit d = true -> nonEmpty d = true ->
  newBigNumber d = normalise (mkDec (digitsToZ d) 0).
Proof.
  intros Hd Hne. unfold newBigNumber, literal.
  assert (Hm : optionalMinus d = ([], d)).
  { destruct d as [| c r]; [reflexivity |]. cbn [forallb] in Hd.
    apply andb_prop in Hd as [Hc _]. cbn [optionalMinus].
    rewrite (digit_not_minus c Hc). reflexivity. }
  rewrite Hm.
  pose proof (span_app isDigit d [] Hd I) as Hs. rewrite app_nil_r in Hs.
  rewrite Hs, Hne. cbn [orb parseExponent nonEmpty List.length].
  rewrite app_nil_r. reflexivity.
Qed.

Lemma matchAt_number_alias (d alias : text) :
  forallb isDigit d = true -> nonEmpty d = true ->
  span isSpace (32 :: alias) = ([32], alias) ->
  span isUnitChar alias = (alias, []) ->
  matchAt (d ++ 32 :: alias)
  = Some (d, alias, (List.length d + 1 + List.length alias)%nat).
Proof.
  intros Hd Hne Hsp Hun. unfold matchAt.
  assert (Hm : optionalMinus (d ++ 32 :: alias) = ([], d ++ 32 :: alias)).
  { destruct d as [| c r]; [discriminate Hne |]. cbn [forallb] in Hd.
    apply andb_prop in Hd as [Hc _]. cbn [app optionalMinus].
    rewrite (digit_not_minus c Hc). reflexivity. }
  rewrite Hm. unfold matchDigits.
  rewrite (span_app isDigit d (32 :: alias) Hd eq_refl).
  cbn [N.eqb Pos.eqb]. rewrite Hne.
  cbn [matchExponent N.eqb Pos.eqb orb].
  rewrite Hsp, Hun. cbn [app]. rewrite app_nil_r. reflexivity.
Qed.

End NumberAliasFacts.

(** X14. A whole number, a space and any alias of the table parse as one
    token: the magnitude is what the library makes of zero plus the number
    times the magnitude of the alias's unit. Within the exponent range that
    is the finite value of the number times the magnitude of the unit. *)
Theorem number_and_alias_parse (Time : TimeType -> Big.dec)
  (d alias : Parser.text) (v : Big.dec) :
  In (alias, v) (Parser.tokens Time) ->
  forallb Parser.isDigit d = true ->
  Parser.nonEmpty d = true ->
  let n := Big.mkDec (Parser.digitsToZ d) 0 in
  Parser.Duration Time (d ++ 32%N :: alias)
  = Big.Ranged.plus (Big.Fin (Big.ofZ 0))
      (Big.Ranged.times (Big.normalise n) (Big.normalise v))
  /\ (tokenWithin (Big.ofZ 0) n v = true ->
      exists r : Big.dec,
        Parser.Duration Time (d ++ 32%N :: alias) = Big.Fin r
        /\ Big.toQ r == inject_Z (Parser.digitsToZ d) * Big.toQ v).
Proof.
  intros Hin Hd Hne n.
  pose proof (alias_shape Time) as Hall. rewrite Forall_forall in Hall.
  destruct (Hall _ Hin) as (Hlow & Hcom & Hrep & Hsp & Hun & Hget).
  cbn [fst snd] in *.
  assert (E : Parser.Duration Time (d ++ 32%N :: alias)
              = Big.Ranged.plus (Big.Fin (Big.ofZ 0))
                  (Big.Ranged.times (Big.normalise n) (Big.normalise v))).
  { unfold Parser.Duration, Parser.calculateOffset, Parser.matches.
    rewrite (digits_toLowerCase d _ Hd), Hlow.
    rewrite (digits_removeCommas d _ Hd), Hcom.
    rewrite (digits_replaceAAn d _ Hd false).
    assert (Ed : match d with [] => false | _ => true end = true)
      by (destruct d; [discriminate Hne | reflexivity]).
    rewrite Ed, Hrep.
    assert (Hscan : Parser.scan 0 (d ++ 32%N :: alias) = [(d, alias)]).
    { destruct d as [| c r] eqn:Ec; [discriminate Hne |].
      rewrite <- Ec in *.
      assert (Hm := matchAt_number_alias d alias Hd Hne Hsp Hun).
      rewrite Ec in Hm |- *. cbn [app Parser.scan] in Hm |- *. rewrite Hm.
      f_equal. apply scan_skips. rewrite length_app. cbn [List.length]. lia. }
    rewrite Hscan. cbn [fold_left Parser.callback]. rewrite Hget.
    rewrite (newBigNumber_digits d Hd Hne). reflexivity. }
  split; [exact E |]. intro Hw. rewrite E.
  exists (Big.plus (Big.ofZ 0) (Big.times n v)). split.
  - exact (tokenWithin_exact (Big.ofZ 0) n v Hw).
  - rewrite toQ_plus, toQ_times, !toQ_ofZ. subst n.
    unfold Big.toQ at 1; cbn [Big.coef Big.expo]. cbn [Qpower]. ring.
Qed.

Lemma number_and_alias_parse_witness :
  In (Parser.ofString "hrs", exampleTime Hour) (Parser.tokens exampleTime)
  /\ tokenWithin (Big.ofZ 0) (Big.ofZ 12) (exampleTime Hour) = true
  /\ exists r : Big.dec,
       Parser.Duration exampleTime (Parser.ofString "12 hrs") = Big.Fin r
       /\ Big.toQ r == 12 * Big.toQ (exampleTime Hour).
Proof.
  assert (Hin : In (Parser.ofString "hrs", exampleTime Hour)
                   (Parser.tokens exampleTime))
    by (vm_compute; do 38 right; left; reflexivity).
  split; [exact Hin |]. split; [reflexivity |].
  exact (proj2 (number_and_alias_parse exampleTime (Parser.ofString "12")
                  (Parser.ofString "hrs") (exampleTime Hour)
                  Hin eq_refl eq_refl) eq_refl).
Defined.

(** ** Placeholders *)
Section PlaceholderFacts.

Import Parser Localization.

Variable lookup : text -> option text.

Lemma replaceFrom_skip (x y : text) :
  forall k,
    replaceFrom lookup (List.length x + k) (x ++ y) = replaceFrom lookup k y.
Proof.
  induction x as [| c r IH]; intro k; [reflexivity |].
  cbn [List.length Nat.add app replaceFrom]. apply IH.
Qed.

Lemma replaceFrom_noBrace (a l : text) :
  noBrace a = true ->
  replaceFrom lookup 0 (a ++ l) = a ++ replaceFrom lookup 0 l.
Proof.
  induction a as [| c r IH]; intro H; [reflexivity |].
  unfold noBrace in H. cbn [forallb] in H. apply andb_prop in H as [Hc Hr].
  cbn [app replaceFrom matchPlaceholder].
  apply negb_true_iff in Hc. rewrite Hc, (IH Hr). reflexivity.
Qed.

Lemma matchPlaceholder_length (l name : text) (len : nat) :
  matchPlaceholder l = Some (name, len) ->
  (2 <= len <= List.length l)%nat.
Proof.
  destruct l as [| c r]; cbn [matchPlaceholder]; [discriminate |].
  destruct (c =? 123)%N; [| discriminate].
  destruct (span isWord r) as [n rest] eqn:E.
  destruct (span_spec _ _ _ _ E) as (-> & _ & _).
  destruct rest as [| c' rest']; [discriminate |].
  destruct (nonEmpty n && (c' =? 125)%N); [| discriminate].
  intro H; inversion H; subst. cbn [List.length].
  rewrite length_app. cbn [List.length]. lia.
Qed.

(** When every name read gives nothing truthy, every match is replaced by
    itself. *)
Lemma replaceFrom_unchanged (l : text) :
  forall skip,
    Forall (fun name => lookup name = None) (namesFrom skip l) ->
    replaceFrom lookup skip l = skipn skip l.
Proof.
  induction l as [| c r IH]; intros skip Hnone.
  - destruct skip; reflexivity.
  - cbn [replaceFrom namesFrom] in *. destruct skip as [| k]; [| apply IH, Hnone].
    destruct (matchPlaceholder (c :: r)) as [[name len] |] eqn:E.
    + inversion Hnone as [| ? ? Hname Hrest]; subst.
      rewrite Hname, (IH _ Hrest).
      destruct (matchPlaceholder_length _ _ _ E) as [Hlen _].
      destruct len as [| len']; [lia |].
      cbn [Nat.sub skipn]. rewrite Nat.sub_0_r.
      change (skipn len' r) with (skipn (S len') (c :: r)).
      apply firstn_skipn.
    + rewrite (IH _ Hnone). reflexivity.
Qed.

End PlaceholderFacts.

(** X15. [replacePlaceholders] returns the string unchanged when it holds no
    opening brace, and when every name it reads from the placeholders object
    gives a value that is missing or falsy: each match is then put back as it
    was written. Only the names that stand between braces in the string are
    read. *)
Theorem placeholders_left_as_written (lookup : Parser.text -> option Parser.text)
  (s : Parser.text) :
  noBrace s = true
  \/ Forall (fun name => lookup name = None) (Localization.names s) ->
  Localization.replacePlaceholders lookup s = s.
Proof.
  intros [H | H]; unfold Localization.replacePlaceholders.
  - rewrite <- (app_nil_r s) at 1.
    rewrite (replaceFrom_noBrace lookup s [] H). apply app_nil_r.
  - apply (replaceFrom_unchanged lookup s 0%nat H).
Qed.

Lemma placeholders_left_as_written_witness :
  let inherited name :=
    if Parser.textEqb name (Parser.ofString "constructor")
    then Some (Parser.ofString "function Object() { [native code] }")
    else None in
  Localization.names (Parser.ofString "Hello {user}, you have {count} messages")
  = [Parser.ofString "user"; Parser.ofString "count"]
  /\ Localization.replacePlaceholders inherited
       (Parser.ofString "Hello {user}, you have {count} messages")
     = Parser.ofString "Hello {user}, you have {count} messages".
Proof.
  intro inherited.
  assert (E : Localization.names
                (Parser.ofString "Hello {user}, you have {count} messages")
              = [Parser.ofString "user"; Parser.ofString "count"])
    by (vm_compute; reflexivity).
  split; [exact E |].
  apply (placeholders_left_as_written inherited
           (Parser.ofString "Hello {user}, you have {count} messages")).
  right. rewrite E.
  constructor; [reflexivity |]. constructor; [reflexivity |]. constructor.
Defined.

(** X16. A placeholder with a truthy value is replaced by the text of the
    value, which is not scanned again; the text before it, when it holds no
    opening brace, is kept, and the text after it is processed in turn. *)
Theorem placeholder_replaced (lookup : Parser.text -> option Parser.text)
  (before name value after : Parser.text) :
  noBrace before = true ->
  forallb Parser.isWord name = true ->
  Parser.nonEmpty name = true ->
  lookup name = Some value ->
  Localization.replacePlaceholders lookup
    (before ++ 123%N :: name ++ 125%N :: after)
  = before ++ value ++ Localization.replacePlaceholders lookup after.
Proof.
  intros Hb Hw Hne Hl. unfold Localization.replacePlaceholders.
  rewrite (replaceFrom_noBrace lookup before _ Hb). f_equal.
  cbn [Localization.replaceFrom Localization.matchPlaceholder N.eqb Pos.eqb].
  rewrite (span_app Parser.isWord name (125%N :: after) Hw eq_refl).
  rewrite Hne. cbn [N.eqb Pos.eqb andb]. rewrite Hl. f_equal.
  replace (List.length name + 2 - 1)%nat with (List.length name + 1)%nat by lia.
  rewrite (replaceFrom_skip lookup name (125%N :: after) 1). reflexivity.
Qed.

Lemma placeholder_replaced_witness :
  Localization.replacePlaceholders
    (fun name => if Parser.textEqb name (Parser.ofString "user")
                 then Some (Parser.ofString "{count}") else None)
    (Parser.ofString "Hello {user}, {count} new")
  = Parser.ofString "Hello {count}, {count} new".
Proof.
  rewrite (placeholder_replaced _ (Parser.ofString "Hello ")
             (Parser.ofString "user") (Parser.ofString "{count}")
             (Parser.ofString ", {count} new"));
    reflexivity.
Defined.

(** ** Articles and negative numbers in front of an alias *)
Section ArticleFacts.

Import Big Parser.

Local Open Scope N_scope.

(** The parse of "a", a space and an alias, and of "an", a space and an
    alias, computed on every entry of the table. *)
Lemma article_table (Time : TimeType -> dec) :
  Forall (fun kv =>
            Duration Time (97 :: 32 :: fst kv)
            = Ranged.plus (Fin (ofZ 0))
                (Ranged.times (Fin (ofZ 1)) (normalise (snd kv)))
            /\ Duration Time (97 :: 110 :: 32 :: fst kv)
               = Ranged.plus (Fin (ofZ 0))
                   (Ranged.times (Fin (ofZ 1)) (normalise (snd kv))))
         (tokens Time).
Proof.
  unfold tokens at 1, aliases. cbn [map app].
  repeat (constructor; [split; reflexivity |]). constructor.
Qed.

Lemma minus_not_word : isWord 45 = false.
Proof. reflexivity. Qed.

Lemma newBigNumber_negative_digits (d : text) :
  forallb isDigit d = true -> nonEmpty d = true ->
  newBigNumber (45 :: d) = normalise (mkDec (- digitsToZ d) 0).
Proof.
  intros Hd Hne. unfold newBigNumber, literal.
  cbn [optionalMinus N.eqb Pos.eqb].
  pose proof (span_app isDigit d [] Hd I) as Hs. rewrite app_nil_r in Hs.
  rewrite Hs, Hne. cbn [orb parseExponent nonEmpty List.length].
  rewrite app_nil_r. reflexivity.
Qed.

Lemma matchAt_negative_number_alias (d alias : text) :
  forallb isDigit d = true -> nonEmpty d = true ->
  span isSpace (32 :: alias) = ([32], alias) ->
  span isUnitChar alias = (alias, []) ->
  matchAt (45 :: d ++ 32 :: alias)
  = Some (45 :: d, alias, (S (List.length d) + 1 + List.length alias)%nat).
Proof.
  intros Hd Hne Hsp Hun. unfold matchAt. cbn [optionalMinus N.eqb Pos.eqb].
  unfold matchDigits.
  rewrite (span_app isDigit d (32 :: alias) Hd eq_refl).
  cbn [N.eqb Pos.eqb]. rewrite Hne.
  cbn [matchExponent N.eqb Pos.eqb orb].
  rewrite Hsp, Hun. cbn [app List.length]. rewrite app_nil_r. reflexivity.
Qed.

End ArticleFacts.

(** X17. The articles count as one: "a" or "an", a space and any alias of
    the table parse as the number 1 and that alias, to what the library makes
    of zero plus one times the magnitude of the alias's unit. Within the
    exponent range that is the magnitude of the unit. *)
Theorem article_and_alias_parse (Time : TimeType -> Big.dec)
  (alias : Parser.text) (v : Big.dec) :
  In (alias, v) (Parser.tokens Time) ->
  Parser.Duration Time (97%N :: 32%N :: alias)
  = Big.Ranged.plus (Big.Fin (Big.ofZ 0))
      (Big.Ranged.times (Big.Fin (Big.ofZ 1)) (Big.normalise v))
  /\ Parser.Duration Time (97%N :: 110%N :: 32%N :: alias)
     = Parser.Duration Time (97%N :: 32%N :: alias)
  /\ (tokenWithin (Big.ofZ 0) (Big.ofZ 1) v = true ->
      exists r : Big.dec,
        Parser.Duration Time (97%N :: 32%N :: alias) = Big.Fin r
        /\ Parser.Duration Time (97%N :: 110%N :: 32%N :: alias) = Big.Fin r
        /\ Big.toQ r == Big.toQ v).
Proof.
  intro Hin.
  pose proof (article_table Time) as Hall. rewrite Forall_forall in Hall.
  destruct (Hall _ Hin) as [Ha Han]. cbn [fst snd] in *.
  split; [exact Ha |]. split; [rewrite Ha, Han; reflexivity |].
  intro Hw. rewrite Ha, Han.
  pose proof (tokenWithin_exact (Big.ofZ 0) (Big.ofZ 1) v Hw) as E.
  change (Big.normalise (Big.ofZ 1)) with (Big.Within (Big.Fin (Big.ofZ 1)))
    in E.
  exists (Big.plus (Big.ofZ 0) (Big.times (Big.ofZ 1) v)).
  split; [exact E |]. split; [exact E |].
  rewrite toQ_plus, toQ_times, !toQ_ofZ. ring.
Qed.

Lemma article_and_alias_parse_witness :
  In (Parser.ofString "hour", exampleTime Hour) (Parser.tokens exampleTime)
  /\ tokenWithin (Big.ofZ 0) (Big.ofZ 1) (exampleTime Hour) = true
  /\ exists r : Big.dec,
       Parser.Duration exampleTime (Parser.ofString "a hour") = Big.Fin r
       /\ Parser.Duration exampleTime (Parser.ofString "an hour") = Big.Fin r
       /\ Big.toQ r == Big.toQ (exampleTime Hour).
Proof.
  assert (Hin : In (Parser.ofString "hour", exampleTime Hour)
                   (Parser.tokens exampleTime))
    by (vm_compute; do 36 right; left; reflexivity).
  split; [exact Hin |]. split; [reflexivity |].
  exact (proj2 (proj2 (article_and_alias_parse exampleTime
                         (Parser.ofString "hour") (exampleTime Hour) Hin))
           eq_refl).
Defined.

(** X18. A minus sign in front of the number makes the token negative: a
    minus, a whole number, a space and any alias of the table parse as one
    token, to what the library makes of zero plus minus the number times the
    magnitude of the alias's unit. Within the exponent range that is minus
    the number times the magnitude of the unit. *)
Theorem negative_number_and_alias_parse (Time : TimeType -> Big.dec)
  (d alias : Parser.text) (v : Big.dec) :
  In (alias, v) (Parser.tokens Time) ->
  forallb Parser.isDigit d = true ->
  Parser.nonEmpty d = true ->
  let n := Big.mkDec (- Parser.digitsToZ d) 0 in
  Parser.Duration Time (45%N :: d ++ 32%N :: alias)
  = Big.Ranged.plus (Big.Fin (Big.ofZ 0))
      (Big.Ranged.times (Big.normalise n) (Big.normalise v))
  /\ (tokenWithin (Big.ofZ 0) n v = true ->
      exists r : Big.dec,
        Parser.Duration Time (45%N :: d ++ 32%N :: alias) = Big.Fin r
        /\ Big.toQ r == - (inject_Z (Parser.digitsToZ d) * Big.toQ v)).
Proof.
  intros Hin Hd Hne n.
  pose proof (alias_shape Time) as Hall. rewrite Forall_forall in Hall.
  destruct (Hall _ Hin) as (Hlow & Hcom & Hrep & Hsp & Hun & Hget).
  cbn [fst snd] in *.
  assert (E : Parser.Duration Time (45%N :: d ++ 32%N :: alias)
              = Big.Ranged.plus (Big.Fin (Big.ofZ 0))
                  (Big.Ranged.times (Big.normalise n) (Big.normalise v))).
  { unfold Parser.Duration, Parser.calculateOffset, Parser.matches.
    change (Parser.toLowerCase (45%N :: d ++ 32%N :: alias))
      with (45%N :: Parser.toLowerCase (d ++ 32%N :: alias)).
    rewrite (digits_toLowerCase d _ Hd), Hlow.
    change (Parser.removeCommas (45%N :: d ++ 32%N :: alias))
      with (45%N :: Parser.removeCommas (d ++ 32%N :: alias)).
    rewrite (digits_removeCommas d _ Hd), Hcom.
    change (Parser.replaceAAn false 0 (45%N :: d ++ 32%N :: alias))
      with (45%N :: Parser.replaceAAn false 0 (d ++ 32%N :: alias)).
    rewrite (digits_replaceAAn d _ Hd false).
    assert (Ed : match d with [] => false | _ => true end = true)
      by (destruct d; [discriminate Hne | reflexivity]).
    rewrite Ed, Hrep.
    cbn [Parser.scan].
    rewrite (matchAt_negative_number_alias d alias Hd Hne Hsp Hun).
    rewrite scan_skips
      by (rewrite length_app; cbn [List.length]; lia).
    cbn [fold_left Parser.callback]. rewrite Hget.
    rewrite (newBigNumber_negative_digits d Hd Hne). reflexivity. }
  split; [exact E |]. intro Hw. rewrite E.
  exists (Big.plus (Big.ofZ 0) (Big.times n v)). split.
  - exact (tokenWithin_exact (Big.ofZ 0) n v Hw).
  - rewrite toQ_plus, toQ_times, !toQ_ofZ. subst n.
    unfold Big.toQ at 1; cbn [Big.coef Big.expo]. cbn [Qpower].
    rewrite inject_Z_opp. ring.
Qed.

Lemma negative_number_and_alias_parse_witness :
  In (Parser.ofString "min", exampleTime Minute) (Parser.tokens exampleTime)
  /\ tokenWithin (Big.ofZ 0) (Big.ofZ (-90)) (exampleTime Minute) = true
  /\ exists r : Big.dec,
       Parser.Duration exampleTime (Parser.ofString "-90 min") = Big.Fin r
       /\ Big.toQ r == - (90 * Big.toQ (exampleTime Minute)).
Proof.
  assert (Hin : In (Parser.ofString "min", exampleTime Minute)
                   (Parser.tokens exampleTime))
    by (vm_compute; do 32 right; left; reflexivity).
  split; [exact Hin |]. split; [reflexivity |].
  exact (proj2 (negative_number_and_alias_parse exampleTime
                  (Parser.ofString "90") (Parser.ofString "min")
                  (exampleTime Minute) Hin eq_refl eq_refl) eq_refl).
Defined.

(** X19. For every finite magnitude, negative ones included, [object]
    returns exactly 16 keys, the canonical units in descending order, each
    once, and every unit can be looked up, a zero count included. *)
Theorem object_has_the_canonical_keys (Time : TimeType -> Big.dec)
  (M : Big.dec) :
  exists o : TimeObject,
    Formatter.object Time (Big.Fin M) = Return o
    /\ map fst o = canonicalUnits
    /\ List.length o = 16%nat
    /\ NoDup (map fst o)
    /\ forall t, exists n, objGet o t = Some n.
Proof.
  eexists. split; [reflexivity |].
  split; [reflexivity |]. split; [reflexivity |]. split.
  - cbn [map fst Formatter.kTimeDurations Formatter.cascade objSet
         TimeType_eqb TimeType_index Nat.eqb].
    repeat (constructor; [cbn; intuition discriminate |]). constructor.
  - intro t; destruct t; eexists; reflexivity.
Qed.

(** ** Keys of the localization files *)
Section KeyFacts.

Import Parser LocalizationKeys.

Variable number : Set.
Variable isZero : number -> bool.
Variable native : Set.
Variable member : Json number -> text -> Value number native.
Variable nativeMember : native -> text -> Value number native.

Lemma split_noDot (s : text) : noDot s = true -> split s = [s].
Proof.
  induction s as [| c r IH]; [reflexivity |].
  unfold noDot. cbn [forallb split]. intro H.
  apply andb_prop in H as [Hc Hr]. apply negb_true_iff in Hc.
  rewrite Hc, (IH Hr). reflexivity.
Qed.

Lemma split_dot (name rest : text) :
  noDot name = true -> split (name ++ 46%N :: rest) = name :: split rest.
Proof.
  induction name as [| c r IH]; [reflexivity |].
  unfold noDot. cbn [forallb app split]. intro H.
  apply andb_prop in H as [Hc Hr]. apply negb_true_iff in Hc.
  rewrite Hc, (IH Hr). reflexivity.
Qed.

(** Splitting at the dots gives back the names that were joined with dots. *)
Lemma split_dotted (names : list text) :
  names <> [] -> Forall (fun name => noDot name = true) names ->
  split (dotted names) = names.
Proof.
  induction names as [| name rest IH]; intros Hne Hall; [contradiction |].
  inversion Hall as [| ? ? Hname Hrest]; subst.
  destruct rest as [| name' rest'].
  - cbn [dotted]. apply split_noDot, Hname.
  - change (dotted (name :: name' :: rest'))
      with (name ++ 46%N :: dotted (name' :: rest')).
    rewrite (split_dot _ _ Hname), IH; [reflexivity | discriminate | exact Hrest].
Qed.

Lemma descend_valueAt (key : text) (names more : list text) :
  forall (j v : Json number),
    valueAt number isZero native j names = Some v ->
    descend number isZero native member nativeMember key (OfJson _ _ j)
      (names ++ more)
    = descend number isZero native member nativeMember key (OfJson _ _ v) more.
Proof.
  induction names as [| name rest IH]; intros j v H; cbn [valueAt] in H.
  - injection H as <-. reflexivity.
  - destruct j as [| | | | | props]; try discriminate H.
    destruct (Map_get props name) as [j' |] eqn:E; [| discriminate H].
    destruct (truthy number isZero native (OfJson _ _ j')) eqn:T;
      [| discriminate H].
    cbn [app descend get]. rewrite E, T. apply IH, H.
Qed.

End KeyFacts.

(** X20. On an initialised instance, a dotted key whose names lead through
    own properties of nested objects, every value on the way being truthy,
    returns the value at the end; a string is returned with its placeholders
    replaced when the placeholders object has keys, and as it is otherwise. *)
Theorem getKey_follows_the_names (number : Set) (isZero : number -> bool)
  (native : Set)
  (member : LocalizationKeys.Json number -> Parser.text
            -> LocalizationKeys.Value number native)
  (nativeMember : native -> Parser.text -> LocalizationKeys.Value number native)
  (this : LocalizationKeys.Instance number) (language : Parser.text)
  (data v : LocalizationKeys.Json number) (names : list Parser.text)
  (placeholders : option (Parser.text -> option Parser.text)) :
  LocalizationKeys.initialized number this = true ->
  Parser.Map_get (LocalizationKeys.languages number this) language = Some data ->
  LocalizationKeys.truthy number isZero native
    (LocalizationKeys.OfJson _ _ data) = true ->
  names <> [] ->
  Forall (fun name => LocalizationKeys.noDot name = true) names ->
  LocalizationKeys.valueAt number isZero native data names = Some v ->
  LocalizationKeys.getKey number isZero native member nativeMember this
    language (LocalizationKeys.dotted names) placeholders
  = LocalizationKeys.Returns
      match v, placeholders with
      | LocalizationKeys.JStr s, Some lookup =>
          LocalizationKeys.OfJson _ _
            (LocalizationKeys.JStr
               (Localization.replacePlaceholders lookup s))
      | _, _ => LocalizationKeys.OfJson _ _ v
      end.
Proof.
  intros Hinit Hlang Htruthy Hne Hdots Hat.
  unfold LocalizationKeys.getKey. rewrite Hinit, Hlang, Htruthy. cbn [negb].
  rewrite (split_dotted names Hne Hdots).
  rewrite <- (app_nil_r names).
  rewrite (descend_valueAt number isZero native member nativeMember
             _ names [] data v Hat).
  cbn [LocalizationKeys.descend]. destruct v; reflexivity.
Qed.

(** X21. A key that stops on a falsy value is reported as invalid: when the
    names before the last lead to an object and the last name reads a value
    that is missing, null, false, zero or the empty string there, [getKey]
    throws the invalid key error with the whole key. *)
Theorem getKey_falsy_value_is_invalid (number : Set)
  (isZero : number -> bool) (native : Set)
  (member : LocalizationKeys.Json number -> Parser.text
            -> LocalizationKeys.Value number native)
  (nativeMember : native -> Parser.text -> LocalizationKeys.Value number native)
  (this : LocalizationKeys.Instance number) (language : Parser.text)
  (data : LocalizationKeys.Json number)
  (props : list (Parser.text * LocalizationKeys.Json number))
  (names : list Parser.text) (name : Parser.text)
  (w : LocalizationKeys.Value number native)
  (placeholders : option (Parser.text -> option Parser.text)) :
  LocalizationKeys.initialized number this = true ->
  Parser.Map_get (LocalizationKeys.languages number this) language = Some data ->
  LocalizationKeys.truthy number isZero native
    (LocalizationKeys.OfJson _ _ data) = true ->
  Forall (fun n => LocalizationKeys.noDot n = true) (names ++ [name]) ->
  LocalizationKeys.valueAt number isZero native data names
  = Some (LocalizationKeys.JObj number props) ->
  LocalizationKeys.get number native member nativeMember
    (LocalizationKeys.OfJson _ _ (LocalizationKeys.JObj number props)) name
  = Some w ->
  LocalizationKeys.truthy number isZero native w = false ->
  LocalizationKeys.getKey number isZero native member nativeMember this
    language (LocalizationKeys.dotted (names ++ [name])) placeholders
  = LocalizationKeys.Throws
      (LocalizationKeys.InvalidKey
         (LocalizationKeys.dotted (names ++ [name]))).
Proof.
  intros Hinit Hlang Htruthy Hdots Hat Hget Hfalsy.
  unfold LocalizationKeys.getKey. rewrite Hinit, Hlang, Htruthy. cbn [negb].
  rewrite (split_dotted (names ++ [name]))
    by (try exact Hdots; destruct names; discriminate).
  rewrite (descend_valueAt number isZero native member nativeMember
             _ names [name] data _ Hat).
  cbn [LocalizationKeys.descend]. rewrite Hget, Hfalsy. reflexivity.
Qed.

(** X22. The guards of the lookups: before initialisation [getKey], [getRaw]
    and [getLanguages] throw the not-initialised error whatever they are
    asked; after it, a language that is not loaded, or whose file parsed to a
    falsy value (null, false, zero, the empty string), is reported as an
    invalid language by [getKey] and [getRaw]. *)
Theorem lookup_guards (number : Set) (isZero : number -> bool) (native : Set)
  (member : LocalizationKeys.Json number -> Parser.text
            -> LocalizationKeys.Value number native)
  (nativeMember : native -> Parser.text -> LocalizationKeys.Value number native)
  (this : LocalizationKeys.Instance number) (language key : Parser.text)
  (placeholders : option (Parser.text -> option Parser.text)) :
  (LocalizationKeys.initialized number this = false ->
   LocalizationKeys.getKey number isZero native member nativeMember this
     language key placeholders
   = LocalizationKeys.Throws LocalizationKeys.NotInitialized
   /\ LocalizationKeys.getRaw number isZero native this language
      = LocalizationKeys.Throws LocalizationKeys.NotInitialized
   /\ LocalizationKeys.getLanguages number this
      = LocalizationKeys.Throws LocalizationKeys.NotInitialized)
  /\ (LocalizationKeys.initialized number this = true ->
      match Parser.Map_get (LocalizationKeys.languages number this) language with
      | Some data =>
          LocalizationKeys.truthy number isZero native
            (LocalizationKeys.OfJson _ _ data) = false
      | None => True
      end ->
      LocalizationKeys.getKey number isZero native member nativeMember this
        language key placeholders
      = LocalizationKeys.Throws (LocalizationKeys.InvalidLanguage language)
      /\ LocalizationKeys.getRaw number isZero native this language
         = LocalizationKeys.Throws (LocalizationKeys.InvalidLanguage language)).
Proof.
  split.
  - intro H. unfold LocalizationKeys.getKey, LocalizationKeys.getRaw,
      LocalizationKeys.getLanguages. rewrite H. repeat split.
  - intros H Hl. unfold LocalizationKeys.getKey, LocalizationKeys.getRaw.
    rewrite H. cbn [negb].
    destruct (Parser.Map_get (LocalizationKeys.languages number this) language)
      as [data |]; [rewrite Hl |]; split; reflexivity.
Qed.

Lemma getKey_follows_the_names_witness :
  LocalizationKeys.valueAt Z (Z.eqb 0) unit exampleData
    [Parser.ofString "greeting"; Parser.ofString "hello"]
  = Some (LocalizationKeys.JStr (Parser.ofString "Hi {user}"))
  /\ forall (native : Set)
       (member : LocalizationKeys.Json Z -> Parser.text
                 -> LocalizationKeys.Value Z native)
       (nativeMember : native -> Parser.text -> LocalizationKeys.Value Z native),
       LocalizationKeys.getKey Z (Z.eqb 0) native member nativeMember
         exampleInstance (Parser.ofString "en")
         (Parser.ofString "greeting.hello")
         (Some (fun name => if Parser.textEqb name (Parser.ofString "user")
                            then Some (Parser.ofString "Ada") else None))
       = LocalizationKeys.Returns
           (LocalizationKeys.OfJson Z native
              (LocalizationKeys.JStr (Parser.ofString "Hi Ada"))).
Proof.
  split; [reflexivity |]. intros native member nativeMember.
  change (Parser.ofString "greeting.hello")
    with (LocalizationKeys.dotted
            [Parser.ofString "greeting"; Parser.ofString "hello"]).
  rewrite (getKey_follows_the_names Z (Z.eqb 0) native member nativeMember
             exampleInstance (Parser.ofString "en") exampleData
             (LocalizationKeys.JStr (Parser.ofString "Hi {user}"))
             [Parser.ofString "greeting"; Parser.ofString "hello"]);
    try reflexivity.
  - discriminate.
  - repeat constructor.
Defined.

Lemma getKey_falsy_value_is_invalid_witness :
  LocalizationKeys.valueAt Z (Z.eqb 0) unit exampleData
    [Parser.ofString "greeting"; Parser.ofString "empty"]
  = None
  /\ forall (native : Set)
       (member : LocalizationKeys.Json Z -> Parser.text
                 -> LocalizationKeys.Value Z native)
       (nativeMember : native -> Parser.text -> LocalizationKeys.Value Z native),
       LocalizationKeys.getKey Z (Z.eqb 0) native member nativeMember
         exampleInstance (Parser.ofString "en")
         (Parser.ofString "greeting.empty") None
       = LocalizationKeys.Throws
           (LocalizationKeys.InvalidKey (Parser.ofString "greeting.empty")).
Proof.
  split; [reflexivity |]. intros native member nativeMember.
  change (Parser.ofString "greeting.empty")
    with (LocalizationKeys.dotted
            ([Parser.ofString "greeting"] ++ [Parser.ofString "empty"])).
  rewrite (getKey_falsy_value_is_invalid Z (Z.eqb 0) native member nativeMember
             exampleInstance (Parser.ofString "en") exampleData
             [(Parser.ofString "hello",
               LocalizationKeys.JStr (Parser.ofString "Hi {user}"));
              (Parser.ofString "empty", LocalizationKeys.JStr [])]
             [Parser.ofString "greeting"] (Parser.ofString "empty")
             (LocalizationKeys.OfJson Z native (LocalizationKeys.JStr [])));
    try reflexivity.
  repeat constructor.
Defined.

Lemma lookup_guards_witness :
  (forall (native : Set)
     (member : LocalizationKeys.Json Z -> Parser.text
               -> LocalizationKeys.Value Z native)
     (nativeMember : native -> Parser.text -> LocalizationKeys.Value Z native)
     (key : Parser.text),
     LocalizationKeys.getKey Z (Z.eqb 0) native member nativeMember
       exampleInstance (Parser.ofString "fr") key None
     = LocalizationKeys.Throws
         (LocalizationKeys.InvalidLanguage (Parser.ofString "fr")))
  /\ (forall (native : Set)
        (member : LocalizationKeys.Json Z -> Parser.text
                  -> LocalizationKeys.Value Z native)
        (nativeMember : native -> Parser.text
                        -> LocalizationKeys.Value Z native)
        (language key : Parser.text),
        LocalizationKeys.getKey Z (Z.eqb 0) native member nativeMember
          (LocalizationKeys.mkInstance Z false []) language key None
        = LocalizationKeys.Throws LocalizationKeys.NotInitialized).
Proof.
  split.
  - intros native member nativeMember key.
    apply (proj2 (lookup_guards Z (Z.eqb 0) native member nativeMember
                    exampleInstance (Parser.ofString "fr") key None));
      [reflexivity | exact I].
  - intros native member nativeMember language key.
    apply (proj1 (lookup_guards Z (Z.eqb 0) native member nativeMember
                    (LocalizationKeys.mkInstance Z false [])
                    language key None)).
    reflexivity.
Defined.
